(** * maquette-query: selector matching, tree walks, query handles and the
    event simulator, embedded from [src/index.ts] (the [query(vnode)] API
    with its simulator) and [src/test-projector.ts] (the lazy
    [createTestProjector] API). *)

From Stdlib Require Import ZArith Lia Ascii String List Bool.
From stdpp Require Import base option list strings gmap.

Set Warnings "-register-all".

Open Scope string_scope.
Open Scope list_scope.
Open Scope Z_scope.

(** ** JavaScript completions *)

(** The errors the two files can raise.  The spec's names are kept; the
    messages are the ones in the source.
    - [NodeNotFound]: [new Error('Query did not match a VNode')]
    - [NotInitialized]: [new Error('TestProjector is not initialized')]
    - [InvalidSelector]: [new Error('Invalid selector ' + selector)]
    - [TypeError]: the runtime's error for reading a property of
      [undefined] or calling a value that is not a function
    - [HandlerError]: whatever a user-supplied handler throws. *)
Inductive Error : Type :=
| NodeNotFound
| NotInitialized
| InvalidSelector
| TypeError
| HandlerError (msg : string).

(** A call either returns a value or throws. *)
Inductive result (A : Type) : Type :=
| Ok (a : A)
| Throw (e : Error).
Arguments Ok {A} a.
Arguments Throw {A} e.

#[global] Instance result_ret : MRet result := fun _ a => Ok a.
#[global] Instance result_bind : MBind result := fun _ _ k m =>
  match m with
  | Ok a => k a
  | Throw e => Throw e
  end.

(** ** The simulator's heap: targets and synthetic events *)

(** Objects are compared by identity in the source ([event.target] is the
    very object the caller passed), so they live at locations. *)
Definition loc : Type := nat.

(** The fields the simulator reads or writes on a target element or on an
    event.  A field that holds [None] reads as [undefined]: the source
    never asks whether a property exists, only what it holds. *)
Record JSObject : Type := mkObject {
  value : option string;
  defaultPrevented : option bool;
  propagationStopped : option bool;
  target : option loc;
  which : option Z;
  pageX : option Z;
  pageY : option Z
}.

Definition Heap : Type := list JSObject.

(** A handler is a user function called with the event; it may change any
    object it can reach and may throw.  Its return value is ignored by
    the simulator. *)
Definition Handler : Type := loc -> Heap -> option Error * Heap.

(** ** Virtual nodes *)

(** [properties] is the string-keyed bag of maquette; only handler
    entries are called by this code. [children] and [text] may be absent:
    the walkers test both before use. *)
Inductive VNode : Type := mkVNode {
  vnodeSelector : string;
  text : option string;
  properties : option (gmap string Handler);
  children : option (list VNode)
}.

(** [h(selector, children)] and [h(selector, [text])] of maquette, for
    building examples. *)
Definition h (selector : string) (cs : list VNode) : VNode :=
  mkVNode selector None None (Some cs).
Definition hText (selector : string) (t : string) : VNode :=
  mkVNode selector (Some t) None None.
Definition textVNode (t : string) : VNode :=
  mkVNode "" (Some t) None None.

(** Structural size, for arguments about strict descendants. *)
Fixpoint vsize (v : VNode) : nat :=
  S (match children v with
     | Some cs => fold_right (fun c n => (vsize c + n)%nat) 0%nat cs
     | None => 0%nat
     end).

(** Pre-order document order: a node, then the subtrees of its children
    from left to right. *)
Fixpoint preorder (v : VNode) : list VNode :=
  v :: match children v with
       | Some cs => flat_map preorder cs
       | None => []
       end.

(** The strict descendants of a node in document order. *)
Definition descendants (v : VNode) : list VNode :=
  match children v with
  | Some cs => flat_map preorder cs
  | None => []
  end.

(** ** Selectors *)

(** A predicate is taken to return a boolean for every node; one that
    throws is not covered. *)
Definition VNodePredicate : Type := VNode -> bool.

(** What a caller may pass where [string | VNodePredicate] is expected.
    [SelOther] stands for a value that is neither and that the error
    message can be built from (a number, a plain object, [null],
    [undefined]); a value that string concatenation itself rejects is not
    covered. *)
Inductive Selector : Type :=
| SelString (s : string)
| SelFunction (f : VNodePredicate)
| SelOther.

(** Selectors are made of ASCII characters, for which the positions in
    a [string] are those JavaScript counts.

    [s.indexOf(pat)]: first occurrence, or [-1]. *)
Definition indexOf (s pat : string) : Z :=
  match String.index 0 pat s with
  | Some n => Z.of_nat n
  | None => -1
  end.

(** [s.charAt(i)]: the one-character string at [i], or the empty string
    when [i] is out of range. *)
Definition charAt (s : string) (i : Z) : string :=
  if (i <? 0)%Z then ""
  else match String.get (Z.to_nat i) s with
       | Some c => String c ""
       | None => ""
       end.

(** [selector[0] === '.' || selector[0] === '#'] *)
Definition startsWithDotOrHash (selector : string) : bool :=
  match String.get 0 selector with
  | Some c => Ascii.eqb c "."%char || Ascii.eqb c "#"%char
  | None => false
  end.

(** The predicate [makeSelectorFunction] builds from a string. *)
Definition stringSelector (selector : string) : VNodePredicate :=
  fun vNode =>
    let index := indexOf (vnodeSelector vNode) selector in
    if (if startsWithDotOrHash selector then (0 <? index)%Z else (index =? 0)%Z)
    then
      let nextChar :=
        charAt (vnodeSelector vNode) (index + Z.of_nat (String.length selector))%Z in
      String.eqb nextChar "" || String.eqb nextChar "." || String.eqb nextChar "#"
    else false.

(** [array.join('')]: [undefined] elements contribute nothing. *)
Definition join (parts : list (option string)) : string :=
  fold_right (fun p acc => match p with Some s => String.append s acc | None => acc end)
    "" parts.

(** ** The simulator's state *)

(** What the simulator does to its surroundings, in program order: writes
    to the target's [value] and handler calls.  [Invoke] keeps the event
    object as it was when the handler received it.  The log is ghost
    state: nothing in the code reads it. *)
Inductive Action : Type :=
| SetValue (element : loc) (v : string)
| Invoke (name : string) (event : loc) (eventAtCall : option JSObject).

Record SimState : Type := mkSimState {
  heap : Heap;
  trace : list Action
}.

(** A computation over the simulator's state; a throw keeps the state
    reached so far. *)
Definition Sim (A : Type) : Type := SimState -> result A * SimState.

#[global] Instance sim_ret : MRet Sim := fun _ a s => (Ok a, s).
#[global] Instance sim_bind : MBind Sim := fun _ _ k m s =>
  match m s with
  | (Ok a, s') => k a s'
  | (Throw e, s') => (Throw e, s')
  end.

Definition throw {A : Type} (e : Error) : Sim A := fun s => (Throw e, s).

(** A fresh object: [{...}] or the result of [createEvent]. *)
Definition alloc (o : JSObject) : Sim loc := fun s =>
  (Ok (length (heap s)), mkSimState (heap s ++ [o]) (trace s)).

(** [object.field = v] *)
Definition assign (l : loc) (f : JSObject -> JSObject) : Sim unit := fun s =>
  (Ok tt, mkSimState (alter f l (heap s)) (trace s)).

Definition setValue (v : string) (o : JSObject) : JSObject :=
  mkObject (Some v) (defaultPrevented o) (propagationStopped o) (target o)
    (which o) (pageX o) (pageY o).

(** [element.value = v], entered in the log. *)
Definition writeValue (element : loc) (v : string) : Sim unit := fun s =>
  (Ok tt, mkSimState (alter (setValue v) element (heap s))
            (trace s ++ [SetValue element v])).

(** [f(event)] for a handler [f] stored under [name]. *)
Definition call (name : string) (f : Handler) (event : loc) : Sim unit := fun s =>
  let tr := trace s ++ [Invoke name event (heap s !! event)] in
  match f event (heap s) with
  | (None, hp) => (Ok tt, mkSimState hp tr)
  | (Some e, hp) => (Throw e, mkSimState hp tr)
  end.

Definition emptyObject : JSObject :=
  mkObject None None None None None None None.

Definition setWhich (k : Z) (o : JSObject) : JSObject :=
  mkObject (value o) (defaultPrevented o) (propagationStopped o) (target o)
    (Some k) (pageX o) (pageY o).
Definition setPageX (x : option Z) (o : JSObject) : JSObject :=
  mkObject (value o) (defaultPrevented o) (propagationStopped o) (target o)
    (which o) x (pageY o).
Definition setPageY (y : option Z) (o : JSObject) : JSObject :=
  mkObject (value o) (defaultPrevented o) (propagationStopped o) (target o)
    (which o) (pageX o) y.
Definition setDefaultPrevented (o : JSObject) : JSObject :=
  mkObject (value o) (Some true) (propagationStopped o) (target o)
    (which o) (pageX o) (pageY o).
Definition setPropagationStopped (o : JSObject) : JSObject :=
  mkObject (value o) (defaultPrevented o) (Some true) (target o)
    (which o) (pageX o) (pageY o).

(** The two closures [createEvent] stores on every event, as a handler
    sees them: [event.preventDefault()] and [event.stopPropagation()]. *)
Definition preventDefault (event : loc) (hp : Heap) : Heap :=
  alter setDefaultPrevented event hp.
Definition stopPropagation (event : loc) (hp : Heap) : Heap :=
  alter setPropagationStopped event hp.

Record MouseEventParameters : Type := mkMouseEventParameters {
  params_pageX : option Z;
  params_pageY : option Z
}.

(** ** [src/index.ts]: the [query(vnode)] API and the simulator *)
Module Index.

Definition makeSelectorFunction (selector : Selector) : result VNodePredicate :=
  match selector with
  | SelFunction f => Ok f
  | SelString s => Ok (stringSelector s)
  | SelOther => Throw InvalidSelector
  end.

(** The wrapper [query(vnodeTree)] returns; its methods are the
    definitions below applied to the wrapped node. *)
Record MaquetteQuery : Type := query { vnodeTree : VNode }.

Fixpoint findAll (selector : VNodePredicate) (vnodeTree : VNode)
    (results : list MaquetteQuery) : list MaquetteQuery :=
  let results :=
    if selector vnodeTree then results ++ [query vnodeTree] else results in
  match children vnodeTree with
  | Some cs =>
      fold_left (fun results child => findAll selector child results)
        cs results
  | None => results
  end.

(** The [text] field of a node, under a name the function [text] below
    does not take. *)
Local Abbreviation text_field := text (only parsing).

Fixpoint text (vnodeTree : VNode) (results : list (option string))
  : list (option string) :=
  if String.eqb (vnodeSelector vnodeTree) "" then
    results ++ [text_field vnodeTree]
  else
    let results :=
      match text_field vnodeTree with
      | Some t => if String.eqb t "" then results else results ++ [Some t]
      | None => results
      end in
    match children vnodeTree with
    | Some cs =>
        fold_left (fun results child => text child results) cs results
    | None => results
    end.

Definition createEvent (target : option loc) : Sim loc :=
  alloc (mkObject None (Some false) (Some false) target None None None).

Definition createKeyEvent (which : Z) (target : option loc) : Sim loc :=
  event ← createEvent target;
  _ ← assign event (setWhich which);
  mret event.

Definition createMouseEvent (target : option loc)
    (parameters : option MouseEventParameters) : Sim loc :=
  event ← createEvent target;
  _ ← match parameters with
      | Some ps =>
          _ ← assign event (setPageX (params_pageX ps));
          assign event (setPageY (params_pageY ps))
      | None => mret tt
      end;
  mret event.

Definition createFocusEvent (target : option loc) : Sim loc :=
  createEvent target.

(** [properties.name(event)]: reading [name] off an absent bag, or
    calling an absent entry, is the runtime's [TypeError]. *)
Definition invoke (properties : option (gmap string Handler))
    (name : string) (event : loc) : Sim unit :=
  match properties with
  | None => throw TypeError
  | Some p =>
      match p !! name with
      | Some f => call name f event
      | None => throw TypeError
      end
  end.

(** [if (properties.name)] *)
Definition wired (properties : option (gmap string Handler))
    (name : string) : Sim bool :=
  match properties with
  | None => throw TypeError
  | Some p => mret (bool_decide (is_Some (p !! name)))
  end.

Record Simulator : Type := mkSimulator {
  keyDown : Z -> option loc -> Sim loc;
  keyUp : Z -> option loc -> Sim loc;
  mouseDown : option loc -> option MouseEventParameters -> Sim loc;
  mouseUp : option loc -> option MouseEventParameters -> Sim loc;
  input : option loc -> Sim loc;
  change : option loc -> Sim loc;
  focus : option loc -> Sim loc;
  blur : option loc -> Sim loc;
  keyPress : Z -> string -> string -> option loc -> Sim unit
}.

Definition createSimulator (vnode : VNode) : Simulator :=
  let properties := properties vnode in
  {| keyDown := fun keyCode targetElement =>
       event ← createKeyEvent keyCode targetElement;
       _ ← invoke properties "onkeydown" event;
       mret event;
     keyUp := fun keyCode targetElement =>
       event ← createKeyEvent keyCode targetElement;
       _ ← invoke properties "onkeyup" event;
       mret event;
     mouseDown := fun targetElement parameters =>
       event ← createMouseEvent targetElement parameters;
       _ ← invoke properties "onmousedown" event;
       mret event;
     mouseUp := fun targetElement parameters =>
       event ← createMouseEvent targetElement parameters;
       _ ← invoke properties "onmouseup" event;
       mret event;
     input := fun targetElement =>
       event ← createEvent targetElement;
       _ ← invoke properties "oninput" event;
       mret event;
     change := fun targetElement =>
       event ← createEvent targetElement;
       _ ← invoke properties "onchange" event;
       mret event;
     focus := fun targetElement =>
       event ← createFocusEvent targetElement;
       _ ← invoke properties "onfocus" event;
       mret event;
     blur := fun targetElement =>
       event ← createFocusEvent targetElement;
       _ ← invoke properties "onblur" event;
       mret event;
     keyPress := fun keyCode valueBefore valueAfter targetElement =>
       targetElement ← match targetElement with
                       | Some l => mret l
                       | None => alloc emptyObject
                       end;
       _ ← writeValue targetElement valueBefore;
       b ← wired properties "onkeydown";
       _ ← (if b : bool then
              event ← createKeyEvent keyCode (Some targetElement);
              invoke properties "onkeydown" event
            else mret tt);
       _ ← writeValue targetElement valueAfter;
       b ← wired properties "onkeyup";
       _ ← (if b : bool then
              event ← createKeyEvent keyCode (Some targetElement);
              invoke properties "onkeyup" event
            else mret tt);
       b ← wired properties "oninput";
       if b : bool then
         event ← createEvent (Some targetElement);
         invoke properties "oninput" event
       else mret tt
  |}.

(** The methods of the object [query(vnodeTree)] returns. *)
Definition MaquetteQuery_findAll (q : MaquetteQuery) (selector : Selector)
  : result (list MaquetteQuery) :=
  predicate ← makeSelectorFunction selector;
  mret (findAll predicate (vnodeTree q) []).

Definition MaquetteQuery_find (q : MaquetteQuery) (selector : Selector)
  : result (option MaquetteQuery) :=
  predicate ← makeSelectorFunction selector;
  mret (head (findAll predicate (vnodeTree q) [])).

Definition MaquetteQuery_text (q : MaquetteQuery) : string :=
  join (text (vnodeTree q) []).

Definition MaquetteQuery_simulate (q : MaquetteQuery) : Simulator :=
  createSimulator (vnodeTree q).

End Index.

(** ** [src/test-projector.ts] *)
Module TestProjector.

Definition makeSelectorFunction (selector : Selector) : result VNodePredicate :=
  match selector with
  | SelString s => Ok (stringSelector s)
  | SelFunction f => Ok f
  | SelOther => Throw InvalidSelector
  end.

(** The inner [visit] closure of [filterDescendants]; [results] is the
    array the closure pushes to, threaded through the [forEach]. *)
Fixpoint visit (predicate : VNodePredicate) (vnodeTree : VNode)
    (results : list VNode) : list VNode :=
  match children vnodeTree with
  | Some cs =>
      fold_left
        (fun results child =>
           visit predicate child
             (if predicate child then results ++ [child] else results))
        cs results
  | None => results
  end.

Definition filterDescendants (root : VNode) (predicate : VNodePredicate)
  : list VNode :=
  visit predicate root [].

Fixpoint collectTextContent (vnodeTree : VNode)
    (results : list (option string)) : list (option string) :=
  if String.eqb (vnodeSelector vnodeTree) "" then
    results ++ [text vnodeTree]
  else
    let results :=
      match text vnodeTree with
      | Some t => if String.eqb t "" then results else results ++ [Some t]
      | None => results
      end in
    match children vnodeTree with
    | Some cs =>
        fold_left (fun results child => collectTextContent child results)
          cs results
    | None => results
    end.

(** [array[index]] for a JavaScript number that is an integer: a
    negative or too large index reads [undefined]. *)
Definition at_index {A : Type} (l : list A) (index : Z) : option A :=
  if (index <? 0)%Z then None else l !! Z.to_nat index.

Section Handles.

(** What the render function reads when it is called: the
    application's current state. *)
Context {AppState : Type}.

(** The mutable variable [renderMaquetteFunction] that the closures
    of [createTestProjector] share, next to the state the render
    function draws from. *)
Record World : Type := mkWorld {
  app : AppState;
  renderMaquetteFunction : option (AppState -> VNode)
}.

(** A [NodeQuery] is the object [createQuery] builds around its
    accessor [getVNode]; the accessor may return [undefined].  Its
    members are the definitions that follow.  The [simulate] getter hands
    the resolved node to [createSimulator] of the simulator module, and
    the two target-node accessors only store and return an object for
    it; they play no part in resolution and are left out. *)
Record NodeQuery : Type := createQuery {
  getVNode : World -> result (option VNode)
}.

(** Likewise for [createCollectionQuery] and [getVNodes]. *)
Record NodeListQuery : Type := createCollectionQuery {
  getVNodes : World -> result (list VNode)
}.

(** The inner [getResult] of [createQuery]. *)
Definition getResult (q : NodeQuery) : World -> result VNode := fun w =>
  result ← getVNode q w;
  match result with
  | None => Throw NodeNotFound
  | Some v => Ok v
  end.

Definition execute (q : NodeQuery) : World -> result VNode := getResult q.

(** [exists: () => !!getVNode()] *)
Definition exists_ (q : NodeQuery) : World -> result bool := fun w =>
  result ← getVNode q w;
  mret (bool_decide (is_Some result)).

(** [filterDescendants(getVNode(), predicate)]: [visit] reads
    [.children] off what the accessor returned, a [TypeError] when
    that is [undefined]. *)
Definition filterDescendantsOf (q : NodeQuery) (predicate : VNodePredicate)
  : World -> result (list VNode) := fun w =>
  root ← getVNode q w;
  match root with
  | None => Throw TypeError
  | Some root => Ok (filterDescendants root predicate)
  end.

Definition query (q : NodeQuery) (selector : Selector) : result NodeQuery :=
  predicate ← makeSelectorFunction selector;
  mret (createQuery (fun w =>
    found ← filterDescendantsOf q predicate w;
    mret (head found))).

Definition queryAll (q : NodeQuery) (selector : Selector)
  : result NodeListQuery :=
  predicate ← makeSelectorFunction selector;
  mret (createCollectionQuery (filterDescendantsOf q predicate)).

Definition textContent (q : NodeQuery) : World -> result string := fun w =>
  v ← getResult q w;
  mret (join (collectTextContent v [])).

Definition get_vnodeSelector (q : NodeQuery) : World -> result string :=
  fun w => v ← getResult q w; mret (vnodeSelector v).

Definition get_properties (q : NodeQuery)
  : World -> result (option (gmap string Handler)) :=
  fun w => v ← getResult q w; mret (properties v).

Definition get_children (q : NodeQuery)
  : World -> result (option (list VNode)) :=
  fun w => v ← getResult q w; mret (children v).

Definition getChild (q : NodeQuery) (index : Z) : NodeQuery :=
  createQuery (fun w =>
    v ← getResult q w;
    match children v with
    | None => Throw TypeError
    | Some cs => Ok (at_index cs index)
    end).

(** The three members of the object [createCollectionQuery] returns. *)
Definition NodeListQuery_execute (c : NodeListQuery)
  : World -> result (list VNode) := getVNodes c.

Definition NodeListQuery_getResult (c : NodeListQuery) (index : Z)
  : NodeQuery :=
  createQuery (fun w =>
    vs ← getVNodes c w;
    mret (at_index vs index)).

Definition NodeListQuery_length (c : NodeListQuery) : World -> result Z :=
  fun w => vs ← getVNodes c w; mret (Z.of_nat (length vs)).

(** *** [createTestProjector] *)

Definition getRootVNode : World -> result VNode := fun w =>
  match renderMaquetteFunction w with
  | None => Throw NotInitialized
  | Some render => Ok (render (app w))
  end.

(** The object literal [{children: [root]}] that is cast to [VNode].
    It has no other property.  The two methods the projector takes from
    [createQueryStart] hand it to [filterDescendants], whose [visit]
    reads only [children] off its root, so the selector the record type
    asks for here is never looked at. *)
Definition syntheticParent (root : VNode) : VNode :=
  mkVNode "" None None (Some [root]).

Definition createQueryStart : NodeQuery :=
  createQuery (fun w =>
    root ← getRootVNode w;
    mret (Some (syntheticParent root))).

Definition initialize (initializeRenderMaquetteFunction : AppState -> VNode)
    (w : World) : World :=
  mkWorld (app w) (Some initializeRenderMaquetteFunction).

Definition uninitialize (w : World) : World :=
  mkWorld (app w) None.

Definition root : NodeQuery :=
  createQuery (fun w => v ← getRootVNode w; mret (Some v)).

Definition projector_query : Selector -> result NodeQuery :=
  query createQueryStart.

Definition projector_queryAll : Selector -> result NodeListQuery :=
  queryAll createQueryStart.

(** [createTestProjector(renderMaquetteFunction?)]: the state its
    closures start from. *)
Definition createTestProjector (a : AppState)
    (renderMaquetteFunction : option (AppState -> VNode)) : World :=
  mkWorld a renderMaquetteFunction.

(** The handles rooted at a projector: its [root], the internal
    [createQueryStart] from which its [query] and [queryAll] are taken,
    and whatever [query], [getChild] and [queryAll(...).getResult] of
    such a handle return in turn. *)
Inductive rooted : NodeQuery -> Prop :=
| rooted_root : rooted root
| rooted_start : rooted createQueryStart
| rooted_query q selector q' :
    rooted q -> query q selector = Ok q' -> rooted q'
| rooted_getChild q index :
    rooted q -> rooted (getChild q index)
| rooted_getResult q selector c index :
    rooted q -> queryAll q selector = Ok c ->
    rooted (NodeListQuery_getResult c index).

End Handles.

Arguments World : clear implicits.
Arguments NodeQuery : clear implicits.
Arguments NodeListQuery : clear implicits.

End TestProjector.


(** ** Reference notions the properties are stated against *)

(** [nextChar] is absent, ['.'] or ['#']. *)
Definition fragmentEnd (nextChar : string) : bool :=
  String.eqb nextChar "" || String.eqb nextChar "." || String.eqb nextChar "#".

(** The fragment [fragment] occurs in [s] at position [i] as a whole
    fragment: the characters are there, what follows is the end of the
    string or the start of another fragment, and the position suits the
    kind of the fragment (a class or id after position 0, a tag at 0). *)
Definition occursAtBoundary (fragment s : string) (i : nat) : bool :=
  String.eqb (String.substring i (String.length fragment) s) fragment
  && fragmentEnd (charAt s (Z.of_nat i + Z.of_nat (String.length fragment)))
  && (if startsWithDotOrHash fragment then (0 <? Z.of_nat i)%Z
      else (Z.of_nat i =? 0)%Z).

(** The text a node carries itself; [undefined] joins as nothing. *)
Definition ownText (v : VNode) : string :=
  match text v with
  | Some t => t
  | None => ""
  end.

Definition childList (v : VNode) : list VNode :=
  match children v with
  | Some cs => cs
  | None => []
  end.

(** Text collection read as an either-or: a node with selector [""]
    yields its text, any other node only what its children yield. *)
Fixpoint eitherOrText (v : VNode) : string :=
  if String.eqb (vnodeSelector v) "" then ownText v
  else match children v with
       | Some cs => fold_right (fun c acc => String.append (eitherOrText c) acc) "" cs
       | None => ""
       end.

(** The nodes text collection looks at, in document order: it does not
    go below a node with selector [""]. *)
Fixpoint textWalk (v : VNode) : list VNode :=
  v :: (if String.eqb (vnodeSelector v) "" then []
        else match children v with
             | Some cs => flat_map textWalk cs
             | None => []
             end).

(** The data model's invariant: a node with selector [""] is a text node
    and has no children. *)
Fixpoint textNodesAreLeaves (v : VNode) : bool :=
  match children v with
  | Some cs =>
      (negb (String.eqb (vnodeSelector v) "") || bool_decide (cs = []))
      && forallb textNodesAreLeaves cs
  | None => true
  end.

(** What one entry of the simulator's log says once the location of the
    event is left out. *)
Inductive Step : Type :=
| Wrote (element : loc) (v : string)
| Fired (name : string) (eventAtCall : option JSObject).

Definition stepOf (a : Action) : Step :=
  match a with
  | SetValue element v => Wrote element v
  | Invoke name _ eventAtCall => Fired name eventAtCall
  end.

(** The texts of a sequence of nodes, concatenated in sequence order. *)
Definition concatTexts (nodes : list VNode) : string :=
  fold_right (fun n acc => String.append (ownText n) acc) "" nodes.

(** The objects the three event constructors leave on the heap. *)
Definition eventObject (target : option loc) : JSObject :=
  mkObject None (Some false) (Some false) target None None None.

Definition keyEventObject (which : Z) (target : option loc) : JSObject :=
  mkObject None (Some false) (Some false) target (Some which) None None.

Definition mouseEventObject (target : option loc)
    (parameters : option MouseEventParameters) : JSObject :=
  match parameters with
  | Some ps =>
      mkObject None (Some false) (Some false) target None
        (params_pageX ps) (params_pageY ps)
  | None => eventObject target
  end.

(** The log entry of a guarded handler call: one entry when the bag has
    the handler, none otherwise. *)
Definition firedIfWired (p : gmap string Handler) (name : string)
    (eventAtCall : JSObject) : list Step :=
  match p !! name with
  | Some _ => [Fired name (Some eventAtCall)]
  | None => []
  end.

(** A handler that returns normally whatever it is handed. *)
Definition returnsNormally (f : Handler) : Prop :=
  forall event hp, (f event hp).1 = None.

(** ** Example data *)

(** The tree of the repository's test:
    [div > [div.here, div > [div.here.too, div.and.here.too]]]. *)
Definition exampleTree : VNode :=
  h "div" [ h "div.here" [];
            h "div" [ h "div.here.too" []; h "div.and.here.too" [] ] ].

(** [h('p', ['Hello ', h('b', ['world'])])], with maquette's shortcut
    that stores a single string child in [text]. *)
Definition exampleParagraph : VNode :=
  h "p" [ textVNode "Hello "; hText "b" "world" ].

Definition renderExample (_ : unit) : VNode := exampleTree.

(** A handler that records nothing and calls [event.preventDefault()]. *)
Definition preventingHandler : Handler :=
  fun event hp => (None, preventDefault event hp).

(** A handler that throws. *)
Definition throwingHandler : Handler :=
  fun _ hp => (Some (HandlerError "boom"), hp).

Definition exampleInputThrowing : VNode :=
  mkVNode "input" None
    (Some (<["onkeydown" := throwingHandler]>
           (<["onkeyup" := preventingHandler]> ∅)))
    (Some []).

Definition exampleInput : VNode :=
  mkVNode "input" None
    (Some (<["onkeydown" := preventingHandler]>
           (<["onkeyup" := preventingHandler]>
            (<["oninput" := preventingHandler]> ∅))))
    (Some []).

Definition exampleInputNoOninput : VNode :=
  mkVNode "input" None
    (Some (<["onkeydown" := preventingHandler]>
           (<["onkeyup" := preventingHandler]> ∅)))
    (Some []).

Definition exampleButton : VNode :=
  mkVNode "button" None
    (Some (<["onmousedown" := preventingHandler]> ∅))
    (Some []).

(** A projector rendering the test's tree, one that was never
    initialized, and one rendering [h('span', ['hi'])], a node whose text
    maquette stores in [text], leaving [children] unset. *)
Definition exampleWorld : TestProjector.World unit :=
  TestProjector.createTestProjector tt (Some renderExample).

Definition uninitializedWorld : TestProjector.World unit :=
  TestProjector.createTestProjector tt None.

Definition spanWorld : TestProjector.World unit :=
  TestProjector.createTestProjector tt (Some (fun _ => hText "span" "hi")).

(** [{pageX: 10, pageY: 20}] *)
Definition exampleParameters : MouseEventParameters :=
  mkMouseEventParameters (Some 10) (Some 20).

(** A state with one object, the target element, at location 0. *)
Definition oneTarget : SimState := mkSimState [emptyObject] [].

(** ** The rest of [src/index.ts] *)

(** The [children] getter of the object [query(vnodeTree)] returns, with
    the closure variable [children] it caches in passed along.  The
    variable starts as the empty array; an array is truthy, whatever its
    length, and [None] stands for a falsy content.  On a falsy content
    the getter maps [query] over the node's children, which fails when
    the node has none to map over. *)
Definition children_variable : Type := option (list Index.MaquetteQuery).

Definition children_initially : children_variable := Some [].

Definition MaquetteQuery_children (q : Index.MaquetteQuery)
    (cached : children_variable)
  : result (list Index.MaquetteQuery) * children_variable :=
  match cached with
  | Some cs => (Ok cs, cached)
  | None =>
      match children (Index.vnodeTree q) with
      | Some cs => (Ok (map Index.query cs), Some (map Index.query cs))
      | None => (Throw TypeError, cached)
      end
  end.

(** [n] reads of the getter in a row, with what each read returned. *)
Fixpoint read_children (q : Index.MaquetteQuery) (n : nat)
    (cached : children_variable)
  : list (result (list Index.MaquetteQuery)) * children_variable :=
  match n with
  | O => ([], cached)
  | S n =>
      let '(r, cached) := MaquetteQuery_children q cached in
      let '(rs, cached) := read_children q n cached in
      (r :: rs, cached)
  end.

(** The single-action methods of the simulator, grouped by the event
    they build, each with the property it calls. *)
Inductive KeyMethod : Type := KeyDown | KeyUp.
Inductive MouseMethod : Type := MouseDown | MouseUp.
Inductive PlainMethod : Type := Input | Change | Focus | Blur.

Definition keyMethod (m : KeyMethod) (sim : Index.Simulator)
  : Z -> option loc -> Sim loc :=
  match m with
  | KeyDown => Index.keyDown sim
  | KeyUp => Index.keyUp sim
  end.

Definition keyHandler (m : KeyMethod) : string :=
  match m with
  | KeyDown => "onkeydown"
  | KeyUp => "onkeyup"
  end.

Definition mouseMethod (m : MouseMethod) (sim : Index.Simulator)
  : option loc -> option MouseEventParameters -> Sim loc :=
  match m with
  | MouseDown => Index.mouseDown sim
  | MouseUp => Index.mouseUp sim
  end.

Definition mouseHandler (m : MouseMethod) : string :=
  match m with
  | MouseDown => "onmousedown"
  | MouseUp => "onmouseup"
  end.

Definition plainMethod (m : PlainMethod) (sim : Index.Simulator)
  : option loc -> Sim loc :=
  match m with
  | Input => Index.input sim
  | Change => Index.change sim
  | Focus => Index.focus sim
  | Blur => Index.blur sim
  end.

Definition plainHandler (m : PlainMethod) : string :=
  match m with
  | Input => "oninput"
  | Change => "onchange"
  | Focus => "onfocus"
  | Blur => "onblur"
  end.

(** What a single-action method comes to when the handler [f] is wired
    under [name]: the event object [o] is put on the heap at a fresh
    location, [f] is called once with that location, and the method
    returns the location or throws what [f] threw. *)
Definition dispatched (name : string) (o : JSObject) (f : Handler)
    (s : SimState) : result loc * SimState :=
  let event := length (heap s) in
  let tr := trace s ++ [Invoke name event (Some o)] in
  match f event (heap s ++ [o]) with
  | (None, hp) => (Ok event, mkSimState hp tr)
  | (Some e, hp) => (Throw e, mkSimState hp tr)
  end.

(** The property named [name] is not there to call: the node has no bag
    or the bag has no such entry. *)
Definition notWired (vnode : VNode) (name : string) : Prop :=
  match properties vnode with
  | Some p => p !! name = None
  | None => True
  end.

(** [build] puts the object [o] at a fresh location of the heap of [s]
    and returns that location, leaving every object that was there and
    the log as they were. *)
Definition builds (build : Sim loc) (o : JSObject) (s : SimState) : Prop :=
  exists s',
    build s = (Ok (length (heap s)), s')
    /\ heap s' = heap s ++ [o]
    /\ trace s' = trace s
    /\ heap s' !! length (heap s) = Some o
    /\ forall l, (l < length (heap s))%nat -> heap s' !! l = heap s !! l.

(** What a walk from a handle yields on a resolution [r] of that
    handle: the handle's own error when it threw, [missing] when it
    resolved to nothing, and [walk v] when it resolved to the node [v]. *)
Definition onNode {A : Type} (missing : Error) (r : result (option VNode))
    (walk : VNode -> result A) : result A :=
  match r with
  | Throw e => Throw e
  | Ok None => Throw missing
  | Ok (Some v) => walk v
  end.

(** [rootedAs q F]: the handle [q] is rooted at the projector, and [F]
    is the walk its construction prescribes, written over document order
    as a function of the rendered tree: the tree itself for [root], the
    first node among the chosen descendants for [query], the child at
    the index for [getChild], the node at the index among the chosen
    descendants for [queryAll(...).getResult]. *)
Inductive rootedAs {AppState : Type}
  : TestProjector.NodeQuery AppState -> (VNode -> result (option VNode)) -> Prop :=
| rootedAs_root :
    rootedAs TestProjector.root (fun T => Ok (Some T))
| rootedAs_start :
    rootedAs TestProjector.createQueryStart
      (fun T => Ok (Some (TestProjector.syntheticParent T)))
| rootedAs_query q F selector predicate q' :
    rootedAs q F ->
    TestProjector.makeSelectorFunction selector = Ok predicate ->
    TestProjector.query q selector = Ok q' ->
    rootedAs q'
      (fun T => onNode TypeError (F T)
                  (fun v => Ok (head (List.filter predicate (descendants v)))))
| rootedAs_getChild q F index :
    rootedAs q F ->
    rootedAs (TestProjector.getChild q index)
      (fun T => onNode NodeNotFound (F T)
                  (fun v => match children v with
                            | None => Throw TypeError
                            | Some cs => Ok (TestProjector.at_index cs index)
                            end))
| rootedAs_getResult q F selector predicate c index :
    rootedAs q F ->
    TestProjector.makeSelectorFunction selector = Ok predicate ->
    TestProjector.queryAll q selector = Ok c ->
    rootedAs (TestProjector.NodeListQuery_getResult c index)
      (fun T => onNode TypeError (F T)
                  (fun v => Ok (TestProjector.at_index
                                  (List.filter predicate (descendants v))
                                  index))).

(** The handles rooted at a projector that are made with string
    selectors only. *)
Inductive rootedByStrings {AppState : Type}
  : TestProjector.NodeQuery AppState -> Prop :=
| rootedByStrings_root : rootedByStrings TestProjector.root
| rootedByStrings_start : rootedByStrings TestProjector.createQueryStart
| rootedByStrings_query q (s : string) q' :
    rootedByStrings q ->
    TestProjector.query q (SelString s) = Ok q' -> rootedByStrings q'
| rootedByStrings_getChild q index :
    rootedByStrings q -> rootedByStrings (TestProjector.getChild q index)
| rootedByStrings_getResult q (s : string) c index :
    rootedByStrings q ->
    TestProjector.queryAll q (SelString s) = Ok c ->
    rootedByStrings (TestProjector.NodeListQuery_getResult c index).

(** ** Further example data *)

Definition exampleMouseButton : VNode :=
  mkVNode "button" None
    (Some (<["onmouseup" := preventingHandler]>
           (<["onkeydown" := throwingHandler]>
            (<["onfocus" := preventingHandler]> ∅))))
    (Some []).

(** A second render output, with its matches for [.here] elsewhere. *)
Definition exampleOtherTree : VNode :=
  h "section" [ h "p.here" []; h "span.here" [] ].

Definition exampleInputKeydownOnly : VNode :=
  mkVNode "input" None
    (Some (<["onkeydown" := preventingHandler]> ∅))
    (Some []).

Definition exampleInputNoHandlers : VNode :=
  mkVNode "input" None (Some ∅) (Some []).

(** A state with a target at location 0 that already holds a value and
    an earlier event at location 1. *)
Definition twoObjects : SimState :=
  mkSimState [setValue "old" emptyObject; keyEventObject 9 (Some 0%nat)] [].

(** * Properties *)

Import TestProjector.

(** ** Trees *)

Lemma preorder_unfold (v : VNode) : preorder v = v :: descendants v.
Proof. destruct v; reflexivity. Qed.

Lemma vsize_unfold (v : VNode) :
  vsize v = S (match children v with
               | Some cs => fold_right (fun c n => (vsize c + n)%nat) 0%nat cs
               | None => 0%nat
               end).
Proof. destruct v; reflexivity. Qed.

Lemma vsize_sum_In (cs : list VNode) (c : VNode) :
  In c cs ->
  (vsize c <= fold_right (fun c n => (vsize c + n)%nat) 0%nat cs)%nat.
Proof.
  induction cs as [|d cs IH]; simpl; [tauto|].
  intros [->|Hin]; [lia|]. specialize (IH Hin). lia.
Qed.

Lemma vsize_child (v c : VNode) (cs : list VNode) :
  children v = Some cs -> In c cs -> (vsize c < vsize v)%nat.
Proof.
  intros Hcs Hin. rewrite (vsize_unfold v), Hcs.
  pose proof (vsize_sum_In cs c Hin). lia.
Qed.

(** Induction over a tree: a property holds of a node once it holds of
    all its children. *)
Lemma VNode_children_ind (P : VNode -> Prop) :
  (forall v, (forall cs c, children v = Some cs -> In c cs -> P c) -> P v) ->
  forall v, P v.
Proof.
  intros step v.
  remember (vsize v) as n eqn:Hn.
  revert v Hn. induction n as [n IH] using lt_wf_ind.
  intros v ->. apply step. intros cs c Hcs Hin.
  apply (IH (vsize c)); [eapply vsize_child; eassumption | reflexivity].
Qed.

(** Every strict descendant is smaller than the node it hangs under. *)
Lemma descendants_smaller (v : VNode) :
  forall d, In d (descendants v) -> (vsize d < vsize v)%nat.
Proof.
  induction v as [v IH] using VNode_children_ind.
  intros d. unfold descendants. destruct (children v) as [cs|] eqn:Hcs; [|simpl; tauto].
  rewrite in_flat_map. intros (c & Hc & Hd).
  pose proof (vsize_child v c cs Hcs Hc) as Hlt.
  rewrite preorder_unfold in Hd. destruct Hd as [->|Hd]; [exact Hlt|].
  specialize (IH cs c eq_refl Hc d Hd). lia.
Qed.

Lemma not_own_descendant (v : VNode) : ~ In v (descendants v).
Proof. intros Hin. apply descendants_smaller in Hin. lia. Qed.

(** ** The walkers against document order *)

Lemma visit_unfold predicate v results :
  visit predicate v results =
  match children v with
  | Some cs =>
      fold_left
        (fun results child =>
           visit predicate child
             (if predicate child then results ++ [child] else results))
        cs results
  | None => results
  end.
Proof. destruct v; reflexivity. Qed.

Lemma visit_children predicate (cs : list VNode) :
  (forall c, In c cs -> forall results,
     visit predicate c results
     = results ++ List.filter predicate (descendants c)) ->
  forall results,
    fold_left
      (fun results child =>
         visit predicate child
           (if predicate child then results ++ [child] else results))
      cs results
    = results ++ List.filter predicate (flat_map preorder cs).
Proof.
  induction cs as [|c cs IH]; intros Hcs results; simpl.
  - by rewrite app_nil_r.
  - rewrite Hcs by (by left). rewrite IH by (intros; apply Hcs; by right).
    rewrite List.filter_app, preorder_unfold. simpl.
    destruct (predicate c); by rewrite <- ?app_assoc.
Qed.

(** [visit] appends, to what was collected so far, the descendants that
    satisfy the predicate, in document order. *)
Lemma visit_spec predicate (v : VNode) :
  forall results,
    visit predicate v results
    = results ++ List.filter predicate (descendants v).
Proof.
  induction v as [v IH] using VNode_children_ind. intros results.
  rewrite visit_unfold. unfold descendants.
  destruct (children v) as [cs|] eqn:Hcs.
  - apply visit_children. intros c Hc. by apply (IH cs c eq_refl).
  - simpl. by rewrite app_nil_r.
Qed.

(** [filterDescendants] reads nothing off its root but [children]. *)
Lemma filterDescendants_reads_children_only (root root' : VNode) predicate :
  children root = children root' ->
  filterDescendants root predicate = filterDescendants root' predicate.
Proof.
  intros Hcs. unfold filterDescendants. by rewrite !visit_unfold, Hcs.
Qed.

Lemma filterDescendants_spec (root : VNode) predicate :
  filterDescendants root predicate = List.filter predicate (descendants root).
Proof. unfold filterDescendants. by rewrite visit_spec. Qed.

Lemma findAll_unfold selector v results :
  Index.findAll selector v results =
  match children v with
  | Some cs =>
      fold_left (fun results child => Index.findAll selector child results) cs
        (if selector v then results ++ [Index.query v] else results)
  | None => if selector v then results ++ [Index.query v] else results
  end.
Proof. destruct v as [? ? ? [cs|]]; reflexivity. Qed.

Lemma findAll_children selector (cs : list VNode) :
  (forall c, In c cs -> forall results,
     Index.findAll selector c results
     = results ++ map Index.query (List.filter selector (preorder c))) ->
  forall results,
    fold_left (fun results child => Index.findAll selector child results)
      cs results
    = results ++ map Index.query (List.filter selector (flat_map preorder cs)).
Proof.
  induction cs as [|c cs IH]; intros Hcs results; simpl.
  - by rewrite app_nil_r.
  - rewrite Hcs by (by left). rewrite IH by (intros; apply Hcs; by right).
    by rewrite List.filter_app, map_app, <- app_assoc.
Qed.

Lemma findAll_spec selector (v : VNode) :
  forall results,
    Index.findAll selector v results
    = results ++ map Index.query (List.filter selector (preorder v)).
Proof.
  induction v as [v IH] using VNode_children_ind. intros results.
  rewrite findAll_unfold, preorder_unfold. unfold descendants. simpl.
  destruct (children v) as [cs|] eqn:Hcs.
  - rewrite findAll_children by (intros c Hc; by apply (IH cs c eq_refl)).
    destruct (selector v); simpl; by rewrite <- ?app_assoc.
  - destruct (selector v); simpl; by rewrite ?app_nil_r.
Qed.

(** ** String selectors *)

Lemma indexOf_cases (s pat : string) :
  (exists n, String.index 0 pat s = Some n /\ indexOf s pat = Z.of_nat n)
  \/ (String.index 0 pat s = None /\ indexOf s pat = (-1)%Z).
Proof.
  unfold indexOf. destruct (String.index 0 pat s) as [n|]; [left; eauto | by right].
Qed.

Lemma index_of_prefix (s pat : string) :
  String.substring 0 (String.length pat) s = pat -> String.index 0 pat s = Some 0%nat.
Proof.
  intros Hsub. apply String.prefix_correct in Hsub.
  destruct s as [|b s]; simpl.
  - destruct pat; [reflexivity | discriminate].
  - simpl in Hsub. destruct pat as [|a pat]; [reflexivity|].
    simpl. simpl in Hsub. by rewrite Hsub.
Qed.

(** A match is always an occurrence of the whole fragment, at the first
    place the fragment's characters appear: after position 0 for a class
    or id, at position 0 for a tag. *)
Lemma stringSelector_sound (fragment : string) (v : VNode) :
  stringSelector fragment v = true ->
  exists i : nat,
    indexOf (vnodeSelector v) fragment = Z.of_nat i
    /\ occursAtBoundary fragment (vnodeSelector v) i = true
    /\ (if startsWithDotOrHash fragment then (0 < i)%nat else i = 0%nat).
Proof.
  unfold stringSelector, occursAtBoundary.
  destruct (indexOf_cases (vnodeSelector v) fragment) as [(n & Hidx & ->)|[_ ->]].
  - intros Hm. exists n. split; [reflexivity|].
    apply String.index_correct1 in Hidx. rewrite Hidx, String.eqb_refl. simpl.
    unfold fragmentEnd.
    destruct (startsWithDotOrHash fragment).
    + destruct (0 <? Z.of_nat n)%Z eqn:Hpos; [|discriminate].
      rewrite Hm. split; [reflexivity|]. apply Z.ltb_lt in Hpos. lia.
    + destruct (Z.of_nat n =? 0)%Z eqn:Hz; [|discriminate].
      rewrite Hm. split; [reflexivity|]. apply Z.eqb_eq in Hz. lia.
  - destruct (startsWithDotOrHash fragment); simpl; discriminate.
Qed.

(** Conversely the fragment is found when its first occurrence is a whole
    fragment. *)
Lemma stringSelector_first_occurrence (fragment : string) (v : VNode) (i : nat) :
  indexOf (vnodeSelector v) fragment = Z.of_nat i ->
  occursAtBoundary fragment (vnodeSelector v) i = true ->
  stringSelector fragment v = true.
Proof.
  unfold stringSelector, occursAtBoundary, fragmentEnd. intros ->.
  rewrite !andb_true_iff. intros [[_ Hend] Hkind].
  destruct (startsWithDotOrHash fragment); by rewrite Hkind, Hend.
Qed.

(** A tag can only occur at position 0, which is its first occurrence:
    searching for a tag never misses. *)
Lemma stringSelector_tag_complete (fragment : string) (v : VNode) (i : nat) :
  startsWithDotOrHash fragment = false ->
  occursAtBoundary fragment (vnodeSelector v) i = true ->
  stringSelector fragment v = true.
Proof.
  intros Htag Hocc. apply (stringSelector_first_occurrence fragment v i); [|exact Hocc].
  unfold occursAtBoundary in Hocc. rewrite Htag, !andb_true_iff in Hocc.
  destruct Hocc as [[Hsub _] Hz]. apply Z.eqb_eq in Hz.
  assert (i = 0%nat) as -> by lia.
  apply String.eqb_eq in Hsub. unfold indexOf.
  by rewrite (index_of_prefix _ _ Hsub).
Qed.

(** The three near misses the spec names. *)
Lemma stringSelector_rejects_partial_words :
  stringSelector ".foo" (h ".foobar" []) = false
  /\ stringSelector ".foo" (h "barfoo" []) = false
  /\ stringSelector "div" (h "divider" []) = false.
Proof. repeat split; reflexivity. Qed.

(** Every fragment of [div.and.here.too] finds the node. *)
Lemma stringSelector_compound :
  Forall (fun fragment => stringSelector fragment (h "div.and.here.too" []) = true)
    ["div"; ".and"; ".here"; ".too"; ".and.here"; ".here.too"; "div.and"].
Proof. repeat constructor. Qed.

(** C2 (code defect): [.here] occurs in [div.hereby.here] at position 10
    as a whole fragment, followed by the end of the string, yet the
    predicate built for [.here] rejects the node: [indexOf] stops at the
    occurrence at position 3, inside [.hereby], and no later occurrence
    is tried. *)
Theorem stringSelector_misses_later_fragment :
  occursAtBoundary ".here" "div.hereby.here" 10 = true
  /\ indexOf "div.hereby.here" ".here" = 3%Z
  /\ makeSelectorFunction (SelString ".here") = Ok (stringSelector ".here")
  /\ Index.makeSelectorFunction (SelString ".here") = Ok (stringSelector ".here")
  /\ stringSelector ".here" (h "div.hereby.here" []) = false.
Proof. repeat split; reflexivity. Qed.

(** ** Query handles *)

Section HandleProperties.

Context {AppState : Type}.
Implicit Types (w : World AppState) (q : NodeQuery AppState)
  (c : NodeListQuery AppState).

Lemma query_inv q selector q' :
  query q selector = Ok q' ->
  exists predicate,
    makeSelectorFunction selector = Ok predicate
    /\ q' = createQuery (fun w =>
              found ← filterDescendantsOf q predicate w; mret (head found)).
Proof.
  unfold query. destruct (makeSelectorFunction selector) as [predicate|e];
    simpl; [|discriminate].
  intros [= <-]. by exists predicate.
Qed.

Lemma queryAll_inv q selector c :
  queryAll q selector = Ok c ->
  exists predicate,
    makeSelectorFunction selector = Ok predicate
    /\ c = createCollectionQuery (filterDescendantsOf q predicate).
Proof.
  unfold queryAll. destruct (makeSelectorFunction selector) as [predicate|e];
    simpl; [|discriminate].
  intros [= <-]. by exists predicate.
Qed.

Lemma filterDescendantsOf_resolved q predicate w v :
  getVNode q w = Ok (Some v) ->
  filterDescendantsOf q predicate w
  = Ok (List.filter predicate (descendants v)).
Proof.
  intros Hq. unfold filterDescendantsOf. rewrite Hq. simpl.
  by rewrite filterDescendants_spec.
Qed.

Lemma filterDescendantsOf_throw q predicate w e :
  getVNode q w = Throw e -> filterDescendantsOf q predicate w = Throw e.
Proof. intros Hq. unfold filterDescendantsOf. by rewrite Hq. Qed.

Lemma filterDescendantsOf_missing q predicate w :
  getVNode q w = Ok None -> filterDescendantsOf q predicate w = Throw TypeError.
Proof. intros Hq. unfold filterDescendantsOf. by rewrite Hq. Qed.

Lemma descendants_syntheticParent (root : VNode) :
  descendants (syntheticParent root) = preorder root.
Proof. unfold descendants. simpl. by rewrite app_nil_r. Qed.

Lemma createQueryStart_resolved w T :
  getRootVNode w = Ok T ->
  getVNode createQueryStart w = Ok (Some (syntheticParent T)).
Proof. intros HT. simpl. by rewrite HT. Qed.

Lemma root_resolved w T :
  getRootVNode w = Ok T -> getVNode root w = Ok (Some T).
Proof. intros HT. simpl. by rewrite HT. Qed.

(** What [queryAll] on a handle yields wherever the handle resolves. *)
Lemma queryAll_resolved q selector predicate c w v :
  makeSelectorFunction selector = Ok predicate ->
  queryAll q selector = Ok c ->
  getVNode q w = Ok (Some v) ->
  NodeListQuery_execute c w = Ok (List.filter predicate (descendants v)).
Proof.
  intros Hsel Hc Hq. apply queryAll_inv in Hc as (p & Hp & ->).
  rewrite Hsel in Hp. injection Hp as <-.
  by apply filterDescendantsOf_resolved.
Qed.

Lemma query_resolved q selector predicate q' w v :
  makeSelectorFunction selector = Ok predicate ->
  query q selector = Ok q' ->
  getVNode q w = Ok (Some v) ->
  getVNode q' w = Ok (head (List.filter predicate (descendants v))).
Proof.
  intros Hsel Hq' Hq. apply query_inv in Hq' as (p & Hp & ->).
  rewrite Hsel in Hp. injection Hp as <-. simpl.
  by rewrite (filterDescendantsOf_resolved q predicate w v Hq).
Qed.

(** C1: for a rendered tree [T] and a string selector [S], the
    projector's [queryAll(S)] yields the nodes of [T] that match, in
    pre-order document order; [queryAll(S)] on any handle yields the
    matching descendants of the node the handle resolves to, in the
    same order; the raw [findAll] scan of [src/index.ts] yields the
    matching nodes of [T] in that order, each wrapped by [query]; and
    running a query again where the tree is the same yields the same
    sequence. *)
Theorem queryAll_in_document_order (S : string) w (T : VNode) :
  getRootVNode w = Ok T ->
  (exists c,
      projector_queryAll (SelString S) = Ok c
      /\ NodeListQuery_execute c w
         = Ok (List.filter (stringSelector S) (preorder T))
      /\ forall w', getRootVNode w' = Ok T ->
           NodeListQuery_execute c w' = NodeListQuery_execute c w)
  /\ (forall q v, getVNode q w = Ok (Some v) ->
      exists c,
        queryAll q (SelString S) = Ok c
        /\ NodeListQuery_execute c w
           = Ok (List.filter (stringSelector S) (descendants v))
        /\ forall w', getVNode q w' = Ok (Some v) ->
             NodeListQuery_execute c w' = NodeListQuery_execute c w)
  /\ Index.MaquetteQuery_findAll (Index.query T) (SelString S)
     = Ok (map Index.query (List.filter (stringSelector S) (preorder T))).
Proof.
  intros HT. split; [|split].
  - eexists. split; [reflexivity|].
    pose proof (fun w' H => queryAll_resolved createQueryStart (SelString S)
                  (stringSelector S) _ w' (syntheticParent T) eq_refl eq_refl
                  (createQueryStart_resolved w' T H)) as Hrun.
    rewrite descendants_syntheticParent in Hrun.
    split; [by apply Hrun|]. intros w' HT'. by rewrite !Hrun.
  - intros q v Hq. eexists. split; [reflexivity|].
    pose proof (fun w' H => queryAll_resolved q (SelString S)
                  (stringSelector S) _ w' v eq_refl eq_refl H) as Hrun.
    split; [by apply Hrun|]. intros w' Hq'. by rewrite !Hrun.
  - unfold Index.MaquetteQuery_findAll. simpl. by rewrite findAll_spec.
Qed.

(** C10: when the rendered root satisfies the selector, the projector's
    [queryAll] has the root as its first result and the projector's
    [query] resolves to the root, because both walk the descendants of
    a synthetic parent whose only child is the root; whereas [query]
    and [queryAll] on a handle never yield the node the handle itself
    resolves to. *)
Theorem projector_query_reaches_root (selector : Selector)
    (predicate : VNodePredicate) w (R : VNode) :
  makeSelectorFunction selector = Ok predicate ->
  getRootVNode w = Ok R ->
  predicate R = true ->
  (exists c l,
      projector_queryAll selector = Ok c
      /\ NodeListQuery_execute c w = Ok l
      /\ In R l /\ head l = Some R)
  /\ (exists q', projector_query selector = Ok q'
                 /\ getVNode q' w = Ok (Some R))
  /\ (forall q v, getVNode q w = Ok (Some v) ->
      (exists c l, queryAll q selector = Ok c
                   /\ NodeListQuery_execute c w = Ok l /\ ~ In v l)
      /\ (exists q' r, query q selector = Ok q'
                       /\ getVNode q' w = Ok r /\ r <> Some v)).
Proof.
  intros Hsel HR Hp.
  assert (List.filter predicate (descendants (syntheticParent R))
          = R :: List.filter predicate (descendants R)) as Hfilter.
  { rewrite descendants_syntheticParent, preorder_unfold. simpl. by rewrite Hp. }
  split; [|split].
  - unfold projector_queryAll, queryAll. rewrite Hsel. simpl.
    eexists _, _. split; [reflexivity|].
    split; [apply filterDescendantsOf_resolved;
            by apply createQueryStart_resolved|].
    rewrite Hfilter. split; [by left|reflexivity].
  - unfold projector_query, query. rewrite Hsel. simpl.
    eexists. split; [reflexivity|]. simpl.
    rewrite (filterDescendantsOf_resolved _ _ _ _
               (createQueryStart_resolved w R HR)).
    simpl. by rewrite Hfilter.
  - intros q v Hq.
    assert (~ In v (List.filter predicate (descendants v))) as Hnot.
    { rewrite filter_In. intros [Hin _]. by apply (not_own_descendant v). }
    split.
    + unfold queryAll. rewrite Hsel. simpl. eexists _, _.
      split; [reflexivity|]. split; [|exact Hnot].
      by apply filterDescendantsOf_resolved.
    + unfold query. rewrite Hsel. simpl. eexists _, _.
      split; [reflexivity|]. simpl.
      rewrite (filterDescendantsOf_resolved _ _ _ _ Hq). simpl.
      split; [reflexivity|].
      intros Hhead. apply Hnot.
      destruct (List.filter predicate (descendants v)) as [|x l];
        [discriminate|]. injection Hhead as ->. by left.
Qed.

(** *** Resolution and its errors *)

Lemma getResult_resolved q w v :
  getVNode q w = Ok (Some v) -> getResult q w = Ok v.
Proof. intros Hq. unfold getResult. by rewrite Hq. Qed.

Lemma getResult_missing q w :
  getVNode q w = Ok None -> getResult q w = Throw NodeNotFound.
Proof. intros Hq. unfold getResult. by rewrite Hq. Qed.

Lemma getResult_throw q w e :
  getVNode q w = Throw e -> getResult q w = Throw e.
Proof. intros Hq. unfold getResult. by rewrite Hq. Qed.

(** Every way of resolving a handle passes on what its accessor
    throws, [exists()] included. *)
Lemma accessor_error_propagates q w e :
  getVNode q w = Throw e ->
  exists_ q w = Throw e
  /\ execute q w = Throw e
  /\ textContent q w = Throw e
  /\ get_vnodeSelector q w = Throw e
  /\ get_properties q w = Throw e
  /\ get_children q w = Throw e.
Proof.
  intros Hq.
  unfold exists_, execute, textContent, get_vnodeSelector, get_properties,
    get_children.
  rewrite (getResult_throw q w e Hq), Hq. by repeat split.
Qed.

(** C3 (amended): whenever the accessor of a handle returns, with a
    node or with nothing, [exists()] returns a boolean, true exactly
    when there is a node; [execute()] and the reads of [textContent],
    [vnodeSelector], [properties] and [children] then throw exactly
    when [exists()] is false, and what they throw is NodeNotFound. *)
Theorem exists_total_reads_fail_iff_missing q w (r : option VNode) :
  getVNode q w = Ok r ->
  exists_ q w = Ok (bool_decide (is_Some r))
  /\ (execute q w = Throw NodeNotFound <-> exists_ q w = Ok false)
  /\ (textContent q w = Throw NodeNotFound <-> exists_ q w = Ok false)
  /\ (get_vnodeSelector q w = Throw NodeNotFound <-> exists_ q w = Ok false)
  /\ (get_properties q w = Throw NodeNotFound <-> exists_ q w = Ok false)
  /\ (get_children q w = Throw NodeNotFound <-> exists_ q w = Ok false)
  /\ (forall e,
        execute q w = Throw e \/ textContent q w = Throw e
        \/ get_vnodeSelector q w = Throw e \/ get_properties q w = Throw e
        \/ get_children q w = Throw e ->
        e = NodeNotFound /\ exists_ q w = Ok false).
Proof.
  intros Hq.
  unfold exists_, execute, textContent, get_vnodeSelector, get_properties,
    get_children, getResult.
  rewrite Hq. destruct r as [v|]; simpl.
  - do 6 (split; [first [reflexivity | split; discriminate]|]).
    intros e [He|[He|[He|[He|He]]]]; discriminate.
  - do 6 (split; [first [reflexivity | split; reflexivity]|]).
    intros e [He|[He|[He|[He|He]]]]; (split; [congruence|reflexivity]).
Qed.

Lemma head_filter_existsb (predicate : VNodePredicate) (l : list VNode) :
  bool_decide (is_Some (head (List.filter predicate l))) = existsb predicate l.
Proof.
  induction l as [|x l IH]; simpl; [reflexivity|].
  destruct (predicate x); simpl; [reflexivity | exact IH].
Qed.

(** The number of matches decides [exists()] on a handle made by
    [query]: false for none, true for one or many. *)
Lemma exists_counts_matches q selector predicate q' w v :
  makeSelectorFunction selector = Ok predicate ->
  query q selector = Ok q' ->
  getVNode q w = Ok (Some v) ->
  exists_ q' w = Ok (existsb predicate (descendants v)).
Proof.
  intros Hsel Hq' Hq. unfold exists_.
  rewrite (query_resolved q selector predicate q' w v Hsel Hq' Hq).
  change (Ok (bool_decide (is_Some (head (List.filter predicate (descendants v)))))
          = Ok (existsb predicate (descendants v))).
  by rewrite head_filter_existsb.
Qed.

(** *** Indexing *)

Lemma at_index_past_end {A : Type} (l : list A) (index : Z) :
  (Z.of_nat (length l) <= index)%Z -> at_index l index = None.
Proof.
  intros Hle. unfold at_index.
  destruct (index <? 0)%Z; [reflexivity|].
  apply lookup_ge_None. lia.
Qed.

(** [getResult(index)] at or past the length of a collection: the
    handle is built, [exists()] is false, resolution is NodeNotFound. *)
Lemma getResult_past_end c w (vs : list VNode) (index : Z) :
  getVNodes c w = Ok vs ->
  (Z.of_nat (length vs) <= index)%Z ->
  NodeListQuery_length c w = Ok (Z.of_nat (length vs))
  /\ exists_ (NodeListQuery_getResult c index) w = Ok false
  /\ execute (NodeListQuery_getResult c index) w = Throw NodeNotFound.
Proof.
  intros Hc Hle. unfold NodeListQuery_length, exists_, execute, getResult.
  simpl. rewrite Hc. simpl. by rewrite (at_index_past_end vs index Hle).
Qed.

(** [getChild(index)] at or past the end of a children array that is
    there. *)
Lemma getChild_past_end q w (v : VNode) (cs : list VNode) (index : Z) :
  getVNode q w = Ok (Some v) ->
  children v = Some cs ->
  (Z.of_nat (length cs) <= index)%Z ->
  exists_ (getChild q index) w = Ok false
  /\ execute (getChild q index) w = Throw NodeNotFound.
Proof.
  intros Hq Hcs Hle. unfold exists_, execute, getResult. simpl.
  unfold getResult. rewrite Hq. simpl. rewrite Hcs.
  by rewrite (at_index_past_end cs index Hle).
Qed.

(** [getChild(index)] on a node without a children array: the accessor
    reads an index off [undefined]. *)
Lemma getChild_without_children q w (v : VNode) (index : Z) :
  getVNode q w = Ok (Some v) ->
  children v = None ->
  exists_ (getChild q index) w = Throw TypeError
  /\ execute (getChild q index) w = Throw TypeError.
Proof.
  intros Hq Hcs. unfold exists_, execute, getResult. simpl.
  unfold getResult. rewrite Hq. simpl. by rewrite Hcs.
Qed.

(** *** The projector's render function *)

Lemma rooted_uninitialized q w :
  rooted q -> renderMaquetteFunction w = None ->
  getVNode q w = Throw NotInitialized.
Proof.
  intros Hq Hw. induction Hq as [| |q selector q' _ IH Hq'|q index _ IH
                                |q selector c index _ IH Hc].
  - simpl. unfold getRootVNode. by rewrite Hw.
  - simpl. unfold getRootVNode. by rewrite Hw.
  - apply query_inv in Hq' as (p & _ & ->). simpl.
    by rewrite (filterDescendantsOf_throw q p w _ IH).
  - simpl. by rewrite (getResult_throw q w _ IH).
  - apply queryAll_inv in Hc as (p & _ & ->). simpl.
    by rewrite (filterDescendantsOf_throw q p w _ IH).
Qed.

(** C5: once [uninitialize()] has run, every resolution of every handle
    rooted at the projector ([execute], [exists], the property reads,
    and [execute]/[length] of a collection made from it) raises
    NotInitialized.  [uninitialize] itself only clears the render
    variable: the application state is as it was, and binding the same
    render function again gives back the world in which earlier
    resolutions returned their values. *)
Theorem uninitialize_invalidates_next_resolution q w :
  rooted q ->
  getVNode q (uninitialize w) = Throw NotInitialized
  /\ execute q (uninitialize w) = Throw NotInitialized
  /\ exists_ q (uninitialize w) = Throw NotInitialized
  /\ textContent q (uninitialize w) = Throw NotInitialized
  /\ get_vnodeSelector q (uninitialize w) = Throw NotInitialized
  /\ get_properties q (uninitialize w) = Throw NotInitialized
  /\ get_children q (uninitialize w) = Throw NotInitialized
  /\ (forall selector c, queryAll q selector = Ok c ->
        NodeListQuery_execute c (uninitialize w) = Throw NotInitialized
        /\ NodeListQuery_length c (uninitialize w) = Throw NotInitialized)
  /\ app (uninitialize w) = app w
  /\ (forall render v,
        renderMaquetteFunction w = Some render ->
        execute q w = Ok v ->
        execute q (initialize render (uninitialize w)) = Ok v).
Proof.
  intros Hq.
  assert (getVNode q (uninitialize w) = Throw NotInitialized) as Hthrow
    by (by apply rooted_uninitialized).
  destruct (accessor_error_propagates q _ _ Hthrow)
    as (He & Hx & Ht & Hs & Hp & Hc).
  repeat (split; [assumption|]).
  split; [|split; [reflexivity|]].
  - intros selector c Hc'. apply queryAll_inv in Hc' as (p & _ & ->).
    unfold NodeListQuery_execute, NodeListQuery_length. simpl.
    by rewrite (filterDescendantsOf_throw q p _ _ Hthrow).
  - intros render v Hrender Hv.
    replace (initialize render (uninitialize w)) with w; [exact Hv|].
    destruct w as [a r]. simpl in *. by subst r.
Qed.

Lemma rooted_tree_determined q :
  rooted q ->
  forall w w', getRootVNode w = getRootVNode w' -> getVNode q w = getVNode q w'.
Proof.
  intros Hq w w' Hroot.
  induction Hq as [| |q selector q' _ IH Hq'|q index _ IH
                   |q selector c index _ IH Hc].
  - simpl. by rewrite Hroot.
  - simpl. by rewrite Hroot.
  - apply query_inv in Hq' as (p & _ & ->). simpl.
    unfold filterDescendantsOf. by rewrite IH.
  - simpl. unfold getResult. by rewrite IH.
  - apply queryAll_inv in Hc as (p & _ & ->). simpl.
    unfold filterDescendantsOf. by rewrite IH.
Qed.

Lemma rooted_has_walk q : rooted q -> exists F, rootedAs q F.
Proof.
  intros Hq. induction Hq as [| |q selector q' _ [F HF] Hq'|q index _ [F HF]
                              |q selector c index _ [F HF] Hc].
  - eexists. apply rootedAs_root.
  - eexists. apply rootedAs_start.
  - destruct (query_inv q selector q' Hq') as (p & Hp & _).
    eexists. by apply (rootedAs_query q F selector p q').
  - eexists. by apply rootedAs_getChild.
  - destruct (queryAll_inv q selector c Hc) as (p & Hp & _).
    eexists. by apply (rootedAs_getResult q F selector p c index).
Qed.

(** Each resolution runs the prescribed walk on the tree the render
    function returns at that moment. *)
Lemma rootedAs_resolves q F :
  rootedAs q F ->
  forall w, getVNode q w = onNode NotInitialized
                             (T ← getRootVNode w; Ok (Some T)) F.
Proof.
  intros HF w.
  induction HF as [| |q F selector p q' _ IH Hp Hq'|q F index _ IH
                   |q F selector p c index _ IH Hp Hc].
  - simpl. by destruct (getRootVNode w).
  - simpl. by destruct (getRootVNode w).
  - apply query_inv in Hq' as (p' & Hp' & ->).
    rewrite Hp in Hp'. injection Hp' as <-. simpl.
    unfold filterDescendantsOf. rewrite IH.
    destruct (getRootVNode w) as [T|e]; simpl; [|reflexivity].
    destruct (F T) as [[v|]|e]; simpl; [|reflexivity..].
    by rewrite filterDescendants_spec.
  - simpl. unfold getResult. rewrite IH.
    destruct (getRootVNode w) as [T|e]; simpl; [|reflexivity].
    by destruct (F T) as [[v|]|e].
  - apply queryAll_inv in Hc as (p' & Hp' & ->).
    rewrite Hp in Hp'. injection Hp' as <-. simpl.
    unfold filterDescendantsOf. rewrite IH.
    destruct (getRootVNode w) as [T|e]; simpl; [|reflexivity].
    destruct (F T) as [[v|]|e]; simpl; [|reflexivity..].
    by rewrite filterDescendants_spec.
Qed.

(** C6: every handle rooted at the projector has a walk [F] that its
    construction prescribes ([rootedAs]), and every invocation of its
    accessor is that walk run on the tree the render function returns at
    the time of the call: the first of the matching descendants for
    [query], the match at the index for [queryAll(...).getResult], the
    child at the index for [getChild], each taken from what the
    enclosing handle's walk yields on that same tree.  So after
    [initialize(render')] the handle, without being made again, resolves
    to [F] of the tree [render'] produces and a collection made from it
    lists the matches in that tree; nothing of an earlier resolution is
    kept, the result being the same wherever the rendered tree is the
    same. *)
Theorem resolution_tracks_current_tree q w :
  (rooted q -> exists F, rootedAs q F)
  /\ forall F, rootedAs q F ->
       (forall T, getRootVNode w = Ok T -> getVNode q w = F T)
       /\ (forall render',
             getVNode q (initialize render' w) = F (render' (app w)))
       /\ (forall selector predicate c render',
             makeSelectorFunction selector = Ok predicate ->
             queryAll q selector = Ok c ->
             NodeListQuery_execute c (initialize render' w)
             = onNode TypeError (F (render' (app w)))
                 (fun v => Ok (List.filter predicate (descendants v))))
       /\ (forall w', getRootVNode w = getRootVNode w' ->
                      getVNode q w = getVNode q w').
Proof.
  split; [apply rooted_has_walk|]. intros F HF.
  pose proof (rootedAs_resolves q F HF) as Hrun.
  split; [|split; [|split]].
  - intros T HT. by rewrite Hrun, HT.
  - intros render'. by rewrite Hrun.
  - intros selector predicate c render' Hsel Hc.
    apply queryAll_inv in Hc as (p & Hp & ->).
    rewrite Hsel in Hp. injection Hp as <-.
    unfold NodeListQuery_execute. simpl. unfold filterDescendantsOf.
    rewrite Hrun. simpl.
    destruct (F (render' (app w))) as [[v|]|e]; simpl; [|reflexivity..].
    by rewrite filterDescendants_spec.
  - intros w' Hw'. by rewrite !Hrun, Hw'.
Qed.

End HandleProperties.

(** ** Text collection *)

Lemma string_append_assoc (a b c : string) :
  String.append (String.append a b) c = String.append a (String.append b c).
Proof.
  induction a as [|x a IH]; [reflexivity|].
  change (String x (String.append (String.append a b) c)
          = String x (String.append a (String.append b c))).
  by rewrite IH.
Qed.

Lemma string_append_nil_r (a : string) : String.append a "" = a.
Proof.
  induction a as [|x a IH]; [reflexivity|].
  change (String x (String.append a "") = String x a). by rewrite IH.
Qed.

Lemma join_app (a b : list (option string)) :
  join (a ++ b) = String.append (join a) (join b).
Proof.
  induction a as [|[x|] a IH]; simpl; [reflexivity| |exact IH].
  by rewrite IH, string_append_assoc.
Qed.

Lemma concatTexts_app (a b : list VNode) :
  concatTexts (a ++ b) = String.append (concatTexts a) (concatTexts b).
Proof.
  induction a as [|x a IH]; simpl; [reflexivity|].
  by rewrite IH, string_append_assoc.
Qed.

Lemma textWalk_unfold (v : VNode) :
  textWalk v
  = v :: (if String.eqb (vnodeSelector v) "" then []
          else match children v with
               | Some cs => flat_map textWalk cs
               | None => []
               end).
Proof. destruct v; reflexivity. Qed.

Lemma collectTextContent_unfold (v : VNode) results :
  collectTextContent v results =
  if String.eqb (vnodeSelector v) "" then results ++ [text v]
  else
    let results :=
      match text v with
      | Some t => if String.eqb t "" then results else results ++ [Some t]
      | None => results
      end in
    match children v with
    | Some cs =>
        fold_left (fun results child => collectTextContent child results)
          cs results
    | None => results
    end.
Proof. destruct v; reflexivity. Qed.

(** The function [text] of [src/index.ts] is the same walk. *)
Lemma text_unfold (v : VNode) results :
  Index.text v results =
  if String.eqb (vnodeSelector v) "" then results ++ [text v]
  else
    let results :=
      match text v with
      | Some t => if String.eqb t "" then results else results ++ [Some t]
      | None => results
      end in
    match children v with
    | Some cs =>
        fold_left (fun results child => Index.text child results) cs results
    | None => results
    end.
Proof. destruct v; reflexivity. Qed.

Lemma join_own_text (v : VNode) results :
  join (match text v with
        | Some t => if String.eqb t "" then results else results ++ [Some t]
        | None => results
        end)
  = String.append (join results) (ownText v).
Proof.
  unfold ownText. destruct (text v) as [t|].
  - destruct (String.eqb_spec t "") as [->|_].
    + by rewrite string_append_nil_r.
    + rewrite join_app. simpl. by rewrite string_append_nil_r.
  - by rewrite string_append_nil_r.
Qed.

Lemma collect_children
    (walk : VNode -> list (option string) -> list (option string))
    (cs : list VNode) :
  (forall c, In c cs -> forall results,
     join (walk c results)
     = String.append (join results) (concatTexts (textWalk c))) ->
  forall results,
    join (fold_left (fun results child => walk child results) cs results)
    = String.append (join results) (concatTexts (flat_map textWalk cs)).
Proof.
  induction cs as [|c cs IH]; intros Hcs results; simpl.
  - by rewrite string_append_nil_r.
  - rewrite IH by (intros; apply Hcs; by right).
    rewrite Hcs by (by left).
    by rewrite concatTexts_app, string_append_assoc.
Qed.

Lemma collectTextContent_spec (v : VNode) :
  forall results,
    join (collectTextContent v results)
    = String.append (join results) (concatTexts (textWalk v)).
Proof.
  induction v as [v IH] using VNode_children_ind. intros results.
  rewrite collectTextContent_unfold, textWalk_unfold.
  destruct (String.eqb (vnodeSelector v) "").
  - rewrite join_app. simpl. unfold ownText. by destruct (text v).
  - cbv zeta. simpl concatTexts.
    destruct (children v) as [cs|] eqn:Hcs.
    + rewrite (collect_children collectTextContent cs)
        by (intros c Hc; by apply (IH cs c eq_refl)).
      by rewrite join_own_text, string_append_assoc.
    + rewrite join_own_text. simpl. by rewrite string_append_nil_r.
Qed.

Lemma text_spec (v : VNode) :
  forall results,
    join (Index.text v results)
    = String.append (join results) (concatTexts (textWalk v)).
Proof.
  induction v as [v IH] using VNode_children_ind. intros results.
  rewrite text_unfold, textWalk_unfold.
  destruct (String.eqb (vnodeSelector v) "").
  - rewrite join_app. simpl. unfold ownText. by destruct (text v).
  - cbv zeta. simpl concatTexts.
    destruct (children v) as [cs|] eqn:Hcs.
    + rewrite (collect_children Index.text cs)
        by (intros c Hc; by apply (IH cs c eq_refl)).
      by rewrite join_own_text, string_append_assoc.
    + rewrite join_own_text. simpl. by rewrite string_append_nil_r.
Qed.

Lemma textNodesAreLeaves_unfold (v : VNode) :
  textNodesAreLeaves v =
  match children v with
  | Some cs =>
      (negb (String.eqb (vnodeSelector v) "") || bool_decide (cs = []))
      && forallb textNodesAreLeaves cs
  | None => true
  end.
Proof. destruct v as [? ? ? [cs|]]; reflexivity. Qed.

Lemma flat_map_ext_In {A B : Type} (f g : A -> list B) (l : list A) :
  (forall x, In x l -> f x = g x) -> flat_map f l = flat_map g l.
Proof.
  induction l as [|x l IH]; intros Hfg; simpl; [reflexivity|].
  rewrite Hfg by (by left). rewrite IH; [reflexivity|].
  intros y Hy. apply Hfg. by right.
Qed.

(** On a tree that keeps the data model's invariant the walk visits
    every node. *)
Lemma textWalk_preorder (v : VNode) :
  textNodesAreLeaves v = true -> textWalk v = preorder v.
Proof.
  induction v as [v IH] using VNode_children_ind.
  rewrite textNodesAreLeaves_unfold, textWalk_unfold, preorder_unfold.
  unfold descendants. destruct (children v) as [cs|] eqn:Hcs.
  - rewrite andb_true_iff, forallb_forall. intros [Hleaf Hall]. f_equal.
    destruct (String.eqb (vnodeSelector v) "").
    + simpl in Hleaf. apply bool_decide_eq_true in Hleaf. by subst cs.
    + apply flat_map_ext_In. intros c Hc.
      apply (IH cs c eq_refl Hc). by apply Hall.
  - intros _. by destruct (String.eqb (vnodeSelector v) "").
Qed.

Lemma concatTexts_children (cs : list VNode) :
  concatTexts (flat_map textWalk cs)
  = fold_right
      (fun c acc => String.append (join (collectTextContent c [])) acc) "" cs.
Proof.
  induction cs as [|c cs IH]; simpl; [reflexivity|].
  by rewrite concatTexts_app, IH, (collectTextContent_spec c []).
Qed.

(** C8 (amended): text collection concatenates in pre-order.  A node
    with selector [""] contributes its own text and nothing below it is
    visited; any other node contributes its own text first, when it has
    one, and then what its children contribute, from left to right.  Both
    copies of the walk ([collectTextContent] and [text]) compute this,
    and on a tree whose text nodes are leaves the texts come in the
    document order of all its nodes. *)
Theorem textContent_own_text_then_children (v : VNode) :
  join (collectTextContent v []) = concatTexts (textWalk v)
  /\ Index.MaquetteQuery_text (Index.query v) = concatTexts (textWalk v)
  /\ (String.eqb (vnodeSelector v) "" = true ->
      join (collectTextContent v []) = ownText v)
  /\ (String.eqb (vnodeSelector v) "" = false ->
      join (collectTextContent v [])
      = String.append (ownText v)
          (fold_right
             (fun c acc => String.append (join (collectTextContent c [])) acc)
             "" (childList v)))
  /\ (textNodesAreLeaves v = true ->
      join (collectTextContent v []) = concatTexts (preorder v)).
Proof.
  pose proof (collectTextContent_spec v []) as Hspec.
  change (join (collectTextContent v []) = concatTexts (textWalk v)) in Hspec.
  split; [exact Hspec|]. split; [exact (text_spec v [])|].
  split; [|split].
  - intros Hsel. rewrite Hspec, textWalk_unfold, Hsel. simpl.
    by rewrite string_append_nil_r.
  - intros Hsel. rewrite Hspec, textWalk_unfold, Hsel. simpl. f_equal.
    unfold childList. destruct (children v) as [cs|]; [|reflexivity].
    apply concatTexts_children.
  - intros Hwf. by rewrite Hspec, textWalk_preorder.
Qed.

(** The [textContent] getter of a handle is this walk over the node the
    handle resolves to. *)
Lemma textContent_resolved {AppState : Type} (q : NodeQuery AppState)
    (w : World AppState) (v : VNode) :
  getVNode q w = Ok (Some v) ->
  textContent q w = Ok (concatTexts (textWalk v)).
Proof.
  intros Hq. unfold textContent, getResult. rewrite Hq. simpl.
  f_equal. apply (collectTextContent_spec v []).
Qed.

(** ** The simulator *)

Lemma sim_bind_ok {A B : Type} (m : Sim A) (k : A -> Sim B) s a s' :
  m s = (Ok a, s') -> (m ≫= k) s = k a s'.
Proof. intros Hm. unfold mbind, sim_bind. by rewrite Hm. Qed.

Lemma sim_bind_throw {A B : Type} (m : Sim A) (k : A -> Sim B) s e s' :
  m s = (Throw e, s') -> (m ≫= k) s = (Throw e, s').
Proof. intros Hm. unfold mbind, sim_bind. by rewrite Hm. Qed.

Lemma alter_fresh (f : JSObject -> JSObject) (hp : Heap) (o : JSObject) :
  alter f (length hp) (hp ++ [o]) = hp ++ [f o].
Proof.
  replace (length hp) with (length hp + 0)%nat by lia.
  by rewrite alter_app_r.
Qed.

Lemma lookup_fresh (hp : Heap) (o : JSObject) :
  (hp ++ [o]) !! length hp = Some o.
Proof. by apply list_lookup_middle. Qed.

Lemma createEvent_run (target : option loc) s :
  Index.createEvent target s
  = (Ok (length (heap s)),
     mkSimState (heap s ++ [eventObject target]) (trace s)).
Proof. reflexivity. Qed.

Lemma createKeyEvent_run (which : Z) (target : option loc) s :
  Index.createKeyEvent which target s
  = (Ok (length (heap s)),
     mkSimState (heap s ++ [keyEventObject which target]) (trace s)).
Proof.
  unfold Index.createKeyEvent.
  rewrite (sim_bind_ok _ _ _ _ _ (createEvent_run target s)).
  unfold mbind, sim_bind, assign, mret, sim_ret. simpl.
  by rewrite alter_fresh.
Qed.

Lemma createMouseEvent_run (target : option loc)
    (parameters : option MouseEventParameters) s :
  Index.createMouseEvent target parameters s
  = (Ok (length (heap s)),
     mkSimState (heap s ++ [mouseEventObject target parameters]) (trace s)).
Proof.
  unfold Index.createMouseEvent.
  rewrite (sim_bind_ok _ _ _ _ _ (createEvent_run target s)).
  destruct parameters as [ps|]; unfold mbind, sim_bind, assign, mret, sim_ret;
    simpl; [|reflexivity].
  by rewrite !alter_fresh.
Qed.

(** Calling a wired handler that returns: one log entry, holding the
    event as the handler received it, and the heap the handler left. *)
Lemma invoke_run (p : gmap string Handler) (name : string) (f : Handler)
    (event : loc) s (hp' : Heap) :
  p !! name = Some f ->
  f event (heap s) = (None, hp') ->
  Index.invoke (Some p) name event s
  = (Ok tt, mkSimState hp' (trace s ++ [Invoke name event (heap s !! event)])).
Proof.
  intros Hf Hrun. unfold Index.invoke. rewrite Hf. unfold call. by rewrite Hrun.
Qed.

Lemma returnsNormally_run (f : Handler) (event : loc) (hp : Heap) :
  returnsNormally f -> f event hp = (None, (f event hp).2).
Proof. intros Hf. specialize (Hf event hp). by destruct (f event hp) as [[e|] hp']. Qed.

(** A guarded call, as [keyPress] makes three of: [build] makes the event
    object [o]; the handler under [name] is called with it when the bag
    has one. *)
Lemma guarded_call_run (p : gmap string Handler) (name : string)
    (build : Sim loc) (o : JSObject) s :
  (forall f, p !! name = Some f -> returnsNormally f) ->
  (forall s0, build s0
     = (Ok (length (heap s0)), mkSimState (heap s0 ++ [o]) (trace s0))) ->
  exists s',
    (b ← Index.wired (Some p) name;
     if b : bool then event ← build; Index.invoke (Some p) name event
     else mret tt) s = (Ok tt, s')
    /\ map stepOf (trace s') = map stepOf (trace s) ++ firedIfWired p name o.
Proof.
  intros Hret Hbuild. unfold firedIfWired, Index.wired.
  destruct (p !! name) as [f|] eqn:Hf.
  - pose proof (returnsNormally_run f (length (heap s)) (heap s ++ [o])
                  (Hret f eq_refl)) as Hrun.
    eexists. split.
    + unfold mbind at 1, sim_bind at 1, mret, sim_ret.
      rewrite bool_decide_eq_true_2 by (by eexists).
      rewrite (sim_bind_ok _ _ _ _ _ (Hbuild s)).
      apply (invoke_run p name f); [exact Hf | exact Hrun].
    + simpl. by rewrite map_app, lookup_fresh.
  - exists s. split.
    + unfold mbind, sim_bind, mret, sim_ret.
      by rewrite bool_decide_eq_false_2 by (by intros [? ?]).
    + by rewrite app_nil_r.
Qed.

(** The same call followed by the rest of the method. *)
Lemma guarded_call_then {B : Type} (p : gmap string Handler) (name : string)
    (build : Sim loc) (o : JSObject) (k : unit -> Sim B) s :
  (forall f, p !! name = Some f -> returnsNormally f) ->
  (forall s0, build s0
     = (Ok (length (heap s0)), mkSimState (heap s0 ++ [o]) (trace s0))) ->
  exists s',
    (b ← Index.wired (Some p) name;
     x ← (if b : bool then event ← build; Index.invoke (Some p) name event
          else mret tt);
     k x) s = k tt s'
    /\ map stepOf (trace s') = map stepOf (trace s) ++ firedIfWired p name o.
Proof.
  intros Hret Hbuild.
  destruct (guarded_call_run p name build o s Hret Hbuild) as (s' & Hrun & Htr).
  exists s'. split; [|exact Htr].
  revert Hrun. unfold Index.wired, mbind, sim_bind, mret, sim_ret.
  destruct (bool_decide (is_Some (p !! name))).
  - destruct (build s) as [[event|e] s1]; [|discriminate].
    intros Hrun. by rewrite Hrun.
  - by intros [= <-].
Qed.

(** C4 (amended): on a node that carries a property bag whose handlers
    return normally, [keyPress(keyCode, valueBefore, valueAfter, target)]
    returns normally after exactly this sequence: write [valueBefore] to
    the target's [value]; call [onkeydown], if the bag has it, with a key
    event for [keyCode] on the target; write [valueAfter]; call
    [onkeyup], if the bag has it, with such a key event; call [oninput],
    if the bag has it, with a plain event on the target.  An omitted
    target is replaced by a fresh object. *)
Theorem keyPress_sequence (vnode : VNode) (p : gmap string Handler)
    (keyCode : Z) (valueBefore valueAfter : string)
    (targetElement : option loc) (s : SimState) :
  properties vnode = Some p ->
  (forall name f, In name ["onkeydown"; "onkeyup"; "oninput"] ->
                  p !! name = Some f -> returnsNormally f) ->
  let element := match targetElement with
                 | Some l => l
                 | None => length (heap s)
                 end in
  exists s',
    Index.keyPress (Index.createSimulator vnode)
      keyCode valueBefore valueAfter targetElement s = (Ok tt, s')
    /\ map stepOf (trace s')
       = map stepOf (trace s)
         ++ [Wrote element valueBefore]
         ++ firedIfWired p "onkeydown" (keyEventObject keyCode (Some element))
         ++ [Wrote element valueAfter]
         ++ firedIfWired p "onkeyup" (keyEventObject keyCode (Some element))
         ++ firedIfWired p "oninput" (eventObject (Some element)).
Proof.
  intros Hp Hret element.
  unfold Index.keyPress, Index.createSimulator. rewrite Hp.
  (* the target, given or fresh *)
  set (s0 := match targetElement with
             | Some _ => s
             | None => mkSimState (heap s ++ [emptyObject]) (trace s)
             end).
  assert ((match targetElement with
           | Some l => mret l
           | None => alloc emptyObject
           end : Sim loc) s = (Ok element, s0)) as Htarget
    by (subst element s0; by destruct targetElement).
  assert (trace s0 = trace s) as Htr0
    by (subst s0; by destruct targetElement).
  rewrite (sim_bind_ok _ _ _ _ _ Htarget).
  (* first write *)
  unfold mbind at 1, sim_bind at 1, writeValue at 1.
  match goal with |- context [mkSimState ?hp (trace s0 ++ ?a)] =>
    set (s1 := mkSimState hp (trace s0 ++ a)) end.
  destruct (guarded_call_then p "onkeydown"
              (Index.createKeyEvent keyCode (Some element))
              (keyEventObject keyCode (Some element))
              (fun _ =>
                 _ ← writeValue element valueAfter;
                 b ← Index.wired (Some p) "onkeyup";
                 _ ← (if b : bool then
                        event ← Index.createKeyEvent keyCode (Some element);
                        Index.invoke (Some p) "onkeyup" event
                      else mret tt);
                 b ← Index.wired (Some p) "oninput";
                 if b : bool then
                   event ← Index.createEvent (Some element);
                   Index.invoke (Some p) "oninput" event
                 else mret tt)
              s1 (fun f => Hret "onkeydown" f (or_introl eq_refl))
              (createKeyEvent_run keyCode (Some element)))
    as (s2 & Hrun2 & Htr2).
  rewrite Hrun2. clear Hrun2.
  (* second write *)
  unfold mbind at 1, sim_bind at 1, writeValue at 1.
  match goal with |- context [mkSimState ?hp (trace s2 ++ ?a)] =>
    set (s3 := mkSimState hp (trace s2 ++ a)) end.
  destruct (guarded_call_then p "onkeyup"
              (Index.createKeyEvent keyCode (Some element))
              (keyEventObject keyCode (Some element))
              (fun _ =>
                 b ← Index.wired (Some p) "oninput";
                 if b : bool then
                   event ← Index.createEvent (Some element);
                   Index.invoke (Some p) "oninput" event
                 else mret tt)
              s3 (fun f => Hret "onkeyup" f (or_intror (or_introl eq_refl)))
              (createKeyEvent_run keyCode (Some element)))
    as (s4 & Hrun4 & Htr4).
  rewrite Hrun4. clear Hrun4.
  destruct (guarded_call_run p "oninput"
              (Index.createEvent (Some element))
              (eventObject (Some element))
              s4 (fun f => Hret "oninput" f
                             (or_intror (or_intror (or_introl eq_refl))))
              (createEvent_run (Some element)))
    as (s5 & Hrun5 & Htr5).
  exists s5. split; [exact Hrun5|].
  rewrite Htr5, Htr4. subst s3. cbn [trace]. rewrite map_app, Htr2.
  subst s1. cbn [trace]. rewrite map_app, Htr0. simpl.
  by rewrite <- !app_assoc.
Qed.

(** C7: on a node whose bag has [onmousedown], [mouseDown(target,
    parameters)] builds one event, calls the handler once with it and
    returns that same event.  The event's [target] is the target passed
    in; its [pageX] and [pageY] are those of [parameters], so 10 and 20
    for [{pageX: 10, pageY: 20}], and both are [undefined] when
    [parameters] is left out.  The heap afterwards is the one the handler
    left. *)
Theorem mouseDown_event (vnode : VNode) (p : gmap string Handler)
    (f : Handler) (targetElement : option loc)
    (parameters : option MouseEventParameters) (s : SimState) (hp' : Heap) :
  properties vnode = Some p ->
  p !! "onmousedown" = Some f ->
  f (length (heap s)) (heap s ++ [mouseEventObject targetElement parameters])
  = (None, hp') ->
  let event := length (heap s) in
  let o := mouseEventObject targetElement parameters in
  Index.mouseDown (Index.createSimulator vnode) targetElement parameters s
  = (Ok event,
     mkSimState hp' (trace s ++ [Invoke "onmousedown" event (Some o)]))
  /\ target o = targetElement
  /\ (forall x y, parameters = Some (mkMouseEventParameters x y) ->
        pageX o = x /\ pageY o = y)
  /\ (parameters = None -> pageX o = None /\ pageY o = None).
Proof.
  intros Hp Hf Hrun event o. split; [|split; [|split]].
  - unfold Index.mouseDown, Index.createSimulator. rewrite Hp.
    rewrite (sim_bind_ok _ _ _ _ _
               (createMouseEvent_run targetElement parameters s)).
    rewrite (sim_bind_ok _ _ _ _ _
               (invoke_run p "onmousedown" f event
                  (mkSimState (heap s ++ [o]) (trace s)) hp' Hf Hrun)).
    subst event o. cbn [heap trace]. by rewrite lookup_fresh.
  - subst o. by destruct parameters.
  - intros x y ->. by split.
  - intros ->. by split.
Qed.

(** ** The properties on the example data *)

(** The spec's scenario: [queryAll('.here')] on the test's tree. *)
Lemma scenario_here :
  map vnodeSelector
    (List.filter (stringSelector ".here") (preorder exampleTree))
  = ["div.here"; "div.here.too"; "div.and.here.too"].
Proof. reflexivity. Qed.

Lemma queryAll_in_document_order_witness :
  getRootVNode exampleWorld = Ok exampleTree
  /\ exists c,
      projector_queryAll (SelString ".here") = Ok c
      /\ NodeListQuery_execute c exampleWorld
         = Ok (List.filter (stringSelector ".here") (preorder exampleTree)).
Proof.
  split; [reflexivity|].
  destruct (queryAll_in_document_order ".here" exampleWorld exampleTree eq_refl)
    as [(c & Hc & Hrun & _) _].
  exists c. by split.
Defined.

Lemma projector_query_reaches_root_witness :
  makeSelectorFunction (SelString "div") = Ok (stringSelector "div")
  /\ getRootVNode exampleWorld = Ok exampleTree
  /\ stringSelector "div" exampleTree = true
  /\ (exists q', projector_query (SelString "div") = Ok q'
                 /\ getVNode q' exampleWorld = Ok (Some exampleTree))
  /\ (exists c l, queryAll root (SelString "div") = Ok c
                  /\ NodeListQuery_execute c exampleWorld = Ok l
                  /\ ~ In exampleTree l).
Proof.
  do 3 (split; [reflexivity|]).
  destruct (projector_query_reaches_root (SelString "div")
              (stringSelector "div") exampleWorld exampleTree
              eq_refl eq_refl eq_refl) as (_ & Hquery & Hhandles).
  split; [exact Hquery|].
  exact (proj1 (Hhandles root exampleTree eq_refl)).
Defined.

(** C3, as stated, fails: [exists()] on the root handle of a projector
    that was never initialized raises NotInitialized, and [exists()] on a
    query chained onto a query that matched nothing raises a TypeError. *)
Lemma exists_can_throw :
  exists_ root uninitializedWorld = Throw NotInitialized
  /\ (q1 ← projector_query (SelString ".missing");
      q2 ← query q1 (SelString ".here");
      exists_ q2 exampleWorld) = Throw TypeError
  /\ ~ (forall (q : NodeQuery unit) (w : World unit),
          exists b, exists_ q w = Ok b).
Proof.
  split; [reflexivity|]. split; [reflexivity|].
  intros Hall. destruct (Hall root uninitializedWorld) as [b Hb]. discriminate.
Qed.

Lemma exists_total_reads_fail_iff_missing_witness :
  getVNode (getChild root 5) exampleWorld = Ok None
  /\ exists_ (getChild root 5) exampleWorld = Ok false
  /\ execute (getChild root 5) exampleWorld = Throw NodeNotFound.
Proof.
  split; [reflexivity|].
  destruct (exists_total_reads_fail_iff_missing (getChild root 5) exampleWorld
              None eq_refl) as (Hex & Hexec & _).
  split; [exact Hex|]. apply Hexec. exact Hex.
Defined.

Lemma uninitialize_invalidates_next_resolution_witness :
  rooted (getChild (root (AppState := unit)) 1)
  /\ execute (getChild root 1) exampleWorld
     = Ok (h "div" [h "div.here.too" []; h "div.and.here.too" []])
  /\ execute (getChild root 1) (uninitialize exampleWorld)
     = Throw NotInitialized.
Proof.
  assert (rooted (getChild (root (AppState := unit)) 1)) as Hrooted
    by (apply rooted_getChild, rooted_root).
  split; [exact Hrooted|]. split; [reflexivity|].
  exact (proj1 (proj2 (uninitialize_invalidates_next_resolution
                         (getChild root 1) exampleWorld Hrooted))).
Defined.

Lemma resolution_tracks_current_tree_witness :
  exists c F,
    projector_queryAll (AppState := unit) (SelString ".here") = Ok c
    /\ rootedAs (NodeListQuery_getResult c 1) F
    /\ getRootVNode exampleWorld = Ok exampleTree
    /\ getVNode (NodeListQuery_getResult c 1) exampleWorld
       = Ok (Some (h "div.here.too" []))
    /\ getVNode (NodeListQuery_getResult c 1)
         (initialize (fun _ => exampleOtherTree) exampleWorld)
       = Ok (Some (h "span.here" [])).
Proof.
  eexists _, _. split; [reflexivity|].
  pose proof (rootedAs_getResult (AppState := unit) createQueryStart _
                (SelString ".here") (stringSelector ".here") _ 1
                rootedAs_start eq_refl eq_refl) as HF.
  destruct (proj2 (resolution_tracks_current_tree _ exampleWorld) _ HF)
    as (Hnow & Hrebound & _).
  split; [exact HF|]. split; [reflexivity|].
  split.
  - rewrite (Hnow exampleTree eq_refl). reflexivity.
  - rewrite Hrebound. reflexivity.
Defined.

(** C9 (code defect): [getChild(0)] on a handle that resolves to
    [h('span', ['hi'])], a node with no children array.  The accessor
    reads index 0 off [undefined], so [exists()] raises a TypeError
    instead of returning false, and [execute()] raises the TypeError
    instead of NodeNotFound. *)
Theorem getChild_without_children_array_throws :
  getVNode root spanWorld = Ok (Some (hText "span" "hi"))
  /\ children (hText "span" "hi") = None
  /\ exists_ (getChild root 0) spanWorld = Throw TypeError
  /\ execute (getChild root 0) spanWorld = Throw TypeError.
Proof. repeat split; reflexivity. Qed.

(** C8, as stated, fails: [h('b', ['world'])] has a non-empty selector
    and carries its text itself; the walk emits that text, where the
    either-or reading yields nothing for a node without children. *)
Lemma element_text_is_emitted :
  join (collectTextContent (hText "b" "world") []) = "world"
  /\ eitherOrText (hText "b" "world") = ""
  /\ join (collectTextContent exampleParagraph []) = "Hello world"
  /\ eitherOrText exampleParagraph = "Hello "
  /\ ~ (forall v, join (collectTextContent v []) = eitherOrText v).
Proof.
  do 4 (split; [reflexivity|]).
  intros Hall. specialize (Hall (hText "b" "world")). discriminate.
Qed.

Lemma textContent_own_text_then_children_witness :
  textNodesAreLeaves exampleParagraph = true
  /\ join (collectTextContent exampleParagraph [])
     = concatTexts (preorder exampleParagraph).
Proof.
  split; [reflexivity|].
  apply (textContent_own_text_then_children exampleParagraph). reflexivity.
Defined.

Lemma preventingHandler_returns : returnsNormally preventingHandler.
Proof. intros event hp. reflexivity. Qed.

Lemma exampleInput_handlers_return (p : gmap string Handler) :
  properties exampleInput = Some p \/ properties exampleInputNoOninput = Some p ->
  forall name f, In name ["onkeydown"; "onkeyup"; "oninput"] ->
                 p !! name = Some f -> returnsNormally f.
Proof.
  intros [[= <-]|[= <-]] name f _ Hf.
  all: repeat (apply lookup_insert_Some in Hf as [[_ <-]|[_ Hf]];
               [apply preventingHandler_returns|]).
  all: by rewrite lookup_empty in Hf.
Qed.

(** C4, as stated, fails on a node that has no property bag, such as
    [h('input')]: every handler is absent, yet [keyPress] does not run
    through with all three calls skipped.  Reading [onkeydown] off the
    missing bag raises a TypeError after the first write; [valueAfter] is
    never written. *)
Lemma keyPress_without_property_bag :
  properties (h "input" []) = None
  /\ (Index.keyPress (Index.createSimulator (h "input" []))
        13 "" "a" (Some 0%nat) oneTarget).1 = Throw TypeError
  /\ map stepOf
       (trace (Index.keyPress (Index.createSimulator (h "input" []))
                 13 "" "a" (Some 0%nat) oneTarget).2)
     = [Wrote 0%nat ""]
  /\ ~ (forall vnode : VNode,
          (forall p name f, properties vnode = Some p ->
                            p !! name = Some f -> returnsNormally f) ->
          exists s', Index.keyPress (Index.createSimulator vnode)
                       13 "" "a" (Some 0%nat) oneTarget = (Ok tt, s')).
Proof.
  do 3 (split; [reflexivity|]).
  intros Hall. destruct (Hall (h "input" [])) as [s' Hs']; [discriminate|].
  discriminate.
Qed.

Lemma keyPress_sequence_witness :
  (exists p, properties exampleInput = Some p
             /\ forall name f, In name ["onkeydown"; "onkeyup"; "oninput"] ->
                               p !! name = Some f -> returnsNormally f)
  /\ (exists s',
        Index.keyPress (Index.createSimulator exampleInput)
          13 "" "a" (Some 0%nat) oneTarget = (Ok tt, s')
        /\ map stepOf (trace s')
           = [ Wrote 0%nat "";
               Fired "onkeydown" (Some (keyEventObject 13 (Some 0%nat)));
               Wrote 0%nat "a";
               Fired "onkeyup" (Some (keyEventObject 13 (Some 0%nat)));
               Fired "oninput" (Some (eventObject (Some 0%nat))) ])
  /\ (exists s',
        Index.keyPress (Index.createSimulator exampleInputNoOninput)
          13 "" "a" (Some 0%nat) oneTarget = (Ok tt, s')
        /\ map stepOf (trace s')
           = [ Wrote 0%nat "";
               Fired "onkeydown" (Some (keyEventObject 13 (Some 0%nat)));
               Wrote 0%nat "a";
               Fired "onkeyup" (Some (keyEventObject 13 (Some 0%nat))) ]).
Proof.
  split; [|split].
  - eexists. split; [reflexivity|].
    apply exampleInput_handlers_return. by left.
  - destruct (keyPress_sequence exampleInput _ 13 "" "a" (Some 0%nat) oneTarget
                eq_refl (exampleInput_handlers_return _ (or_introl eq_refl)))
      as (s' & Hrun & Htr).
    exists s'. split; [exact Hrun|]. rewrite Htr. reflexivity.
  - destruct (keyPress_sequence exampleInputNoOninput _ 13 "" "a" (Some 0%nat)
                oneTarget eq_refl
                (exampleInput_handlers_return _ (or_intror eq_refl)))
      as (s' & Hrun & Htr).
    exists s'. split; [exact Hrun|]. rewrite Htr. reflexivity.
Defined.

Lemma mouseDown_event_witness :
  (exists p, properties exampleButton = Some p
             /\ p !! "onmousedown" = Some preventingHandler)
  /\ exists hp' o,
      Index.mouseDown (Index.createSimulator exampleButton)
        (Some 0%nat) (Some exampleParameters) oneTarget
      = (Ok 1%nat, mkSimState hp' [Invoke "onmousedown" 1%nat (Some o)])
      /\ pageX o = Some 10 /\ pageY o = Some 20 /\ target o = Some 0%nat
      /\ (hp' !! 1%nat ≫= pageX) = Some 10
      /\ (hp' !! 1%nat ≫= defaultPrevented) = Some true.
Proof.
  split; [eexists; split; reflexivity|].
  destruct (mouseDown_event exampleButton _ preventingHandler (Some 0%nat)
              (Some exampleParameters) oneTarget _ eq_refl eq_refl eq_refl)
    as (Hrun & Htarget & Hxy & _).
  destruct (Hxy _ _ eq_refl) as [Hx Hy].
  eexists _, _. split; [exact Hrun|].
  split; [exact Hx|]. split; [exact Hy|]. split; [exact Htarget|].
  split; reflexivity.
Defined.

(** What the hypotheses of the sequence leave out: a handler that throws
    ends [keyPress] there, and a single-action method on a node without
    the handler fails where [keyPress] would skip the call. *)
Lemma keyPress_stops_at_throwing_handler :
  (Index.keyPress (Index.createSimulator exampleInputThrowing)
     13 "" "a" (Some 0%nat) oneTarget).1 = Throw (HandlerError "boom")
  /\ map stepOf
       (trace (Index.keyPress (Index.createSimulator exampleInputThrowing)
                 13 "" "a" (Some 0%nat) oneTarget).2)
     = [Wrote 0%nat "";
        Fired "onkeydown" (Some (keyEventObject 13 (Some 0%nat)))].
Proof. split; reflexivity. Qed.

Lemma keyUp_without_handler_fails :
  (Index.keyUp (Index.createSimulator exampleButton) 13 (Some 0%nat) oneTarget).1
  = Throw TypeError.
Proof. reflexivity. Qed.

(** * Further properties *)

(** ** String selectors at the edges *)

Lemma substring_whole (s : string) :
  String.substring 0 (String.length s) s = s.
Proof. induction s as [|c s IH]; simpl; [reflexivity | by rewrite IH]. Qed.

Lemma get_at_length (s : string) : String.get (String.length s) s = None.
Proof. induction s as [|c s IH]; simpl; [reflexivity | exact IH]. Qed.

Lemma charAt_of_nat (s : string) (n : nat) :
  charAt s (Z.of_nat n)
  = match String.get n s with
    | Some c => String c EmptyString
    | None => EmptyString
    end.
Proof.
  unfold charAt.
  destruct (Z.of_nat n <? 0)%Z eqn:Hneg; [apply Z.ltb_lt in Hneg; lia|].
  by rewrite Nat2Z.id.
Qed.

Lemma charAt_nat (s : string) (n m : nat) :
  charAt s (Z.of_nat n + Z.of_nat m)
  = match String.get (n + m) s with
    | Some c => String c EmptyString
    | None => EmptyString
    end.
Proof. by rewrite <- Nat2Z.inj_add, charAt_of_nat. Qed.

Lemma indexOf_self (s : string) : indexOf s s = 0%Z.
Proof.
  unfold indexOf. by rewrite (index_of_prefix s s (substring_whole s)).
Qed.

Lemma indexOf_empty_pattern (s : string) : indexOf s EmptyString = 0%Z.
Proof. unfold indexOf. by destruct s. Qed.

Lemma one_char_fragmentEnd (c : ascii) :
  fragmentEnd (String c EmptyString)
  = (Ascii.eqb c "."%char || Ascii.eqb c "#"%char).
Proof.
  unfold fragmentEnd. simpl.
  by destruct (Ascii.eqb c "."%char), (Ascii.eqb c "#"%char).
Qed.

Lemma stringSelector_unfold (fragment : string) (v : VNode) :
  stringSelector fragment v
  = let index := indexOf (vnodeSelector v) fragment in
    if (if startsWithDotOrHash fragment then (0 <? index)%Z else (index =? 0)%Z)
    then fragmentEnd
           (charAt (vnodeSelector v)
              (index + Z.of_nat (String.length fragment))%Z)
    else false.
Proof. reflexivity. Qed.

(** X1: the empty selector and the text nodes.  The empty string, used
    as a selector, finds the nodes whose own selector is empty or starts
    with a class or id; a text node (empty selector) is found by the
    empty string and by no other string. *)
Theorem stringSelector_empty_string_and_text_nodes (fragment : string) (v : VNode) :
  stringSelector EmptyString v
  = (String.eqb (vnodeSelector v) EmptyString
     || startsWithDotOrHash (vnodeSelector v))
  /\ (vnodeSelector v = EmptyString ->
      stringSelector fragment v = String.eqb fragment EmptyString).
Proof.
  split.
  - rewrite stringSelector_unfold. cbv zeta.
    rewrite indexOf_empty_pattern.
    destruct (vnodeSelector v) as [|c s]; [reflexivity|].
    change (fragmentEnd (String c EmptyString)
            = (Ascii.eqb c "."%char || Ascii.eqb c "#"%char)).
    apply one_char_fragmentEnd.
  - intros Hv. rewrite stringSelector_unfold, Hv. cbv zeta.
    destruct fragment as [|c f]; [reflexivity|].
    unfold indexOf. simpl.
    by destruct (startsWithDotOrHash (String c f)).
Qed.

(** X2: a node is found by its own complete selector exactly when that
    selector does not start with a class or id: a search for a class or
    id never accepts position 0. *)
Theorem stringSelector_own_selector (v : VNode) :
  stringSelector (vnodeSelector v) v
  = negb (startsWithDotOrHash (vnodeSelector v)).
Proof.
  rewrite stringSelector_unfold. cbv zeta. rewrite indexOf_self.
  rewrite Z.add_0_l, charAt_of_nat, get_at_length.
  by destruct (startsWithDotOrHash (vnodeSelector v)).
Qed.

(** X3: for a tag (a fragment that does not start with ['.'] or ['#'])
    the predicate is exact: it holds if and only if the node's selector
    starts with the tag and goes on with the end of the string, a ['.']
    or a ['#']. *)
Theorem stringSelector_tag_iff (fragment : string) (v : VNode) :
  startsWithDotOrHash fragment = false ->
  (stringSelector fragment v = true
   <-> String.prefix fragment (vnodeSelector v) = true
       /\ fragmentEnd
            (charAt (vnodeSelector v) (Z.of_nat (String.length fragment)))
          = true).
Proof.
  intros Htag. rewrite stringSelector_unfold, Htag. cbv zeta. split.
  - destruct (indexOf_cases (vnodeSelector v) fragment)
      as [(n & Hidx & ->)|[_ ->]]; [|discriminate].
    destruct (Z.of_nat n =? 0)%Z eqn:Hz; [|discriminate].
    apply Z.eqb_eq in Hz. assert (n = 0%nat) as -> by lia.
    intros Hend. split; [|exact Hend].
    apply String.prefix_correct. by apply (String.index_correct1 0).
  - intros [Hpre Hend]. apply String.prefix_correct in Hpre.
    unfold indexOf. rewrite (index_of_prefix _ _ Hpre). exact Hend.
Qed.

(** ** Selectors and longer node selectors *)

Lemma append_cons (c : ascii) (s t : string) :
  String.append (String c s) t = String c (String.append s t).
Proof. reflexivity. Qed.

Lemma prefix_length (f s : string) :
  String.prefix f s = true -> (String.length f <= String.length s)%nat.
Proof.
  revert s. induction f as [|a f IH]; intros s; simpl; [lia|].
  destruct s as [|b s]; [discriminate|]. simpl.
  destruct (ascii_dec a b); [|discriminate].
  intros Hp. specialize (IH s Hp). lia.
Qed.

Lemma prefix_append (f s t : string) :
  String.prefix f s = true -> String.prefix f (String.append s t) = true.
Proof.
  revert s. induction f as [|a f IH]; intros s; [by destruct s, t|].
  destruct s as [|b s]; [discriminate|]. rewrite append_cons. simpl.
  destruct (ascii_dec a b); [apply IH | discriminate].
Qed.

Lemma prefix_false_append (f s t : string) :
  String.prefix f s = false ->
  (String.length f <= String.length s)%nat ->
  String.prefix f (String.append s t) = false.
Proof.
  revert s. induction f as [|a f IH]; intros s; [by destruct s|].
  destruct s as [|b s]; [simpl; lia|]. rewrite append_cons. simpl.
  destruct (ascii_dec a b); [|reflexivity].
  intros Hp Hlen. apply IH; [exact Hp | lia].
Qed.

Lemma index_cons (f : string) (b : ascii) (s : string) :
  String.index 0 f (String b s)
  = if String.prefix f (String b s) then Some 0%nat
    else match String.index 0 f s with
         | Some n => Some (S n)
         | None => None
         end.
Proof. reflexivity. Qed.

Lemma index_fits (f s : string) (n : nat) :
  String.index 0 f s = Some n ->
  (n + String.length f <= String.length s)%nat.
Proof.
  revert n. induction s as [|b s IH]; intros n.
  - simpl. destruct f; [intros [= <-]; simpl; lia | discriminate].
  - rewrite index_cons.
    destruct (String.prefix f (String b s)) eqn:Hp.
    + intros [= <-]. apply prefix_length in Hp. simpl in Hp |- *. lia.
    + destruct (String.index 0 f s) as [m|]; [|discriminate].
      intros [= <-]. specialize (IH m eq_refl). simpl. lia.
Qed.

(** The first occurrence of a fragment stays where it is when the string
    grows at its end. *)
Lemma index_append (f s t : string) (n : nat) :
  String.index 0 f s = Some n ->
  String.index 0 f (String.append s t) = Some n.
Proof.
  revert n. induction s as [|b s IH]; intros n.
  - simpl. destruct f; [|discriminate]. intros [= <-]. by destruct t.
  - rewrite append_cons, !index_cons.
    destruct (String.prefix f (String b s)) eqn:Hp.
    + intros [= <-].
      pose proof (prefix_append f (String b s) t Hp) as Hp'.
      rewrite append_cons in Hp'. by rewrite Hp'.
    + destruct (String.index 0 f s) as [m|] eqn:Hm; [|discriminate].
      intros [= <-].
      pose proof (index_fits f s m Hm) as Hfit.
      pose proof (prefix_false_append f (String b s) t Hp) as Hp'.
      rewrite append_cons in Hp'. rewrite Hp' by (simpl; lia).
      by rewrite (IH m eq_refl).
Qed.

(** X4: a match survives when further classes or ids are added at the
    end of the node's selector: if a string selector finds a node, it
    also finds every node whose selector is that node's selector followed
    by something that starts with ['.'] or ['#']. *)
Theorem stringSelector_stable_under_added_fragments
    (fragment more : string) (v v' : VNode) :
  stringSelector fragment v = true ->
  startsWithDotOrHash more = true ->
  vnodeSelector v' = String.append (vnodeSelector v) more ->
  stringSelector fragment v' = true.
Proof.
  intros Hmatch Hmore Hv'.
  rewrite stringSelector_unfold in Hmatch |- *. cbv zeta in Hmatch |- *.
  rewrite Hv'.
  destruct (indexOf_cases (vnodeSelector v) fragment)
    as [(n & Hidx & Hn)|[_ Hn]]; rewrite Hn in Hmatch;
    [|by destruct (startsWithDotOrHash fragment)].
  assert (indexOf (String.append (vnodeSelector v) more) fragment = Z.of_nat n)
    as -> by (unfold indexOf; by rewrite (index_append _ _ more n Hidx)).
  destruct (if startsWithDotOrHash fragment
            then (0 <? Z.of_nat n)%Z else (Z.of_nat n =? 0)%Z);
    [|discriminate].
  rewrite charAt_nat in Hmatch |- *.
  pose proof (index_fits _ _ _ Hidx) as Hfit.
  destruct (decide (n + String.length fragment < String.length (vnodeSelector v))%nat)
    as [Hin|Hend].
  - by rewrite <- (String.append_correct1 _ more _ Hin).
  - assert (n + String.length fragment
            = 0 + String.length (vnodeSelector v))%nat as -> by lia.
    rewrite <- String.append_correct2.
    unfold startsWithDotOrHash in Hmore.
    destruct (String.get 0 more) as [c|]; [|discriminate].
    by rewrite one_char_fragmentEnd.
Qed.

Lemma stringSelector_stable_under_added_fragments_witness :
  stringSelector ".here" (h "div.here" []) = true
  /\ startsWithDotOrHash ".too#main" = true
  /\ stringSelector ".here" (h "div.here.too#main" []) = true.
Proof.
  do 2 (split; [reflexivity|]).
  apply (stringSelector_stable_under_added_fragments ".here" ".too#main"
           (h "div.here" []) (h "div.here.too#main" []));
    reflexivity.
Defined.

Lemma stringSelector_tag_iff_witness :
  startsWithDotOrHash "div" = false
  /\ (stringSelector "div" (h "div.here" []) = true
      <-> String.prefix "div" "div.here" = true
          /\ fragmentEnd (charAt "div.here" 3) = true).
Proof.
  split; [reflexivity|].
  apply (stringSelector_tag_iff "div" (h "div.here" [])). reflexivity.
Defined.

Lemma stringSelector_empty_string_and_text_nodes_witness :
  vnodeSelector (textVNode "Hello ") = EmptyString
  /\ stringSelector "div" (textVNode "Hello ") = false.
Proof.
  split; [reflexivity|].
  apply (stringSelector_empty_string_and_text_nodes "div" (textVNode "Hello ")).
  reflexivity.
Defined.

(** ** The two tree scans side by side *)

Lemma children_are_descendants (v c : VNode) (cs : list VNode) :
  children v = Some cs -> In c cs -> In c (descendants v).
Proof.
  intros Hcs Hc. unfold descendants. rewrite Hcs. apply in_flat_map.
  exists c. split; [exact Hc|]. rewrite preorder_unfold. by left.
Qed.

Lemma descendants_trans (v : VNode) :
  forall x y, In x (descendants v) -> In y (descendants x) ->
              In y (descendants v).
Proof.
  induction v as [v IH] using VNode_children_ind. intros x y.
  unfold descendants at 1 3. destruct (children v) as [cs|] eqn:Hcs;
    [|simpl; tauto].
  rewrite !in_flat_map. intros (c & Hc & Hx) Hy. exists c. split; [exact Hc|].
  rewrite preorder_unfold in Hx |- *. right.
  destruct Hx as [->|Hx]; [exact Hy|].
  by apply (IH cs c eq_refl Hc x y).
Qed.

Lemma map_vnodeTree_query (l : list VNode) :
  map Index.vnodeTree (map Index.query l) = l.
Proof. induction l as [|x l IH]; simpl; [reflexivity | by rewrite IH]. Qed.

(** X5: the scan of [src/index.ts] and the one of the projector differ
    by the root alone.  [findAll] yields the root, when it satisfies the
    predicate, followed by exactly what [filterDescendants] yields; and
    the walk the projector starts from its synthetic parent yields the
    nodes [findAll] wraps. *)
Theorem findAll_is_root_then_filterDescendants
    (predicate : VNodePredicate) (T : VNode) :
  map Index.vnodeTree (Index.findAll predicate T [])
  = (if predicate T then [T] else []) ++ filterDescendants T predicate
  /\ filterDescendants (syntheticParent T) predicate
     = map Index.vnodeTree (Index.findAll predicate T []).
Proof.
  rewrite findAll_spec, !filterDescendants_spec, descendants_syntheticParent.
  simpl. rewrite map_vnodeTree_query, preorder_unfold. simpl.
  split; [|reflexivity]. by destruct (predicate T).
Qed.

(** ** More on handles *)

Section MoreOnHandles.

Context {AppState : Type}.
Implicit Types (w : World AppState) (q : NodeQuery AppState)
  (c : NodeListQuery AppState).

(** X6: at the projector, [queryAll] yields what [root.queryAll] yields,
    with the root put in front when the root itself satisfies the
    selector; [query] resolves to the root in that case and to what
    [root.query] resolves to otherwise. *)
Theorem projector_queryAll_is_root_then_root_queryAll
    (selector : Selector) (predicate : VNodePredicate) w (T : VNode) cP cR qP qR :
  makeSelectorFunction selector = Ok predicate ->
  getRootVNode w = Ok T ->
  projector_queryAll selector = Ok cP ->
  queryAll root selector = Ok cR ->
  projector_query selector = Ok qP ->
  query root selector = Ok qR ->
  exists below,
    NodeListQuery_execute cR w = Ok below
    /\ NodeListQuery_execute cP w
       = Ok ((if predicate T then [T] else []) ++ below)
    /\ getVNode qP w
       = (if predicate T then Ok (Some T) else getVNode qR w).
Proof.
  intros Hsel HT HcP HcR HqP HqR.
  exists (List.filter predicate (descendants T)).
  rewrite (queryAll_resolved root selector predicate cR w T Hsel HcR
             (root_resolved w T HT)).
  rewrite (queryAll_resolved createQueryStart selector predicate cP w _ Hsel HcP
             (createQueryStart_resolved w T HT)).
  rewrite (query_resolved createQueryStart selector predicate qP w _ Hsel HqP
             (createQueryStart_resolved w T HT)).
  rewrite (query_resolved root selector predicate qR w T Hsel HqR
             (root_resolved w T HT)).
  rewrite descendants_syntheticParent, preorder_unfold. simpl.
  by destruct (predicate T).
Qed.

(** X7: [query(selector)] is [queryAll(selector).getResult(0)]: made
    from the same handle with the same selector, the two resolve alike
    in every state, errors included, and [exists()] of the former says
    whether [length] of the latter is positive. *)
Theorem query_is_first_of_queryAll q (selector : Selector) q' c :
  query q selector = Ok q' ->
  queryAll q selector = Ok c ->
  forall w,
    getVNode q' w = getVNode (NodeListQuery_getResult c 0) w
    /\ exists_ q' w
       = (n ← NodeListQuery_length c w; Ok (0 <? n)%Z).
Proof.
  intros Hq' Hc w.
  apply query_inv in Hq' as (p & Hp & ->).
  apply queryAll_inv in Hc as (p' & Hp' & ->).
  rewrite Hp in Hp'. injection Hp' as <-.
  unfold exists_, NodeListQuery_length. simpl.
  destruct (filterDescendantsOf q p w) as [[|x l]|e]; by simpl.
Qed.

Lemma at_index_in_range {A : Type} (l : list A) (index : Z) :
  (0 <= index < Z.of_nat (length l))%Z ->
  exists x, at_index l index = Some x /\ l !! Z.to_nat index = Some x.
Proof.
  intros [Hlo Hhi]. unfold at_index.
  destruct (index <? 0)%Z eqn:Hneg; [apply Z.ltb_lt in Hneg; lia|].
  destruct (lookup_lt_is_Some_2 l (Z.to_nat index)) as [x Hx]; [lia|].
  by exists x.
Qed.

Lemma at_index_out_of_range {A : Type} (l : list A) (index : Z) :
  ~ (0 <= index < Z.of_nat (length l))%Z -> at_index l index = None.
Proof.
  intros Hout. unfold at_index.
  destruct (index <? 0)%Z eqn:Hneg; [reflexivity|].
  apply Z.ltb_ge in Hneg. apply lookup_ge_None. lia.
Qed.

Lemma at_index_is_Some {A : Type} (l : list A) (index : Z) :
  bool_decide (is_Some (at_index l index))
  = bool_decide (0 <= index < Z.of_nat (length l))%Z.
Proof.
  destruct (decide (0 <= index < Z.of_nat (length l))%Z) as [Hin|Hout].
  - destruct (at_index_in_range l index Hin) as (x & -> & _).
    rewrite !bool_decide_eq_true_2; [done|done|by eexists].
  - rewrite (at_index_out_of_range l index Hout).
    rewrite !bool_decide_eq_false_2; [done|done|by intros [? ?]].
Qed.

(** X8: indexing a collection that resolves to [vs].  [length] is the
    number of nodes in [vs]; [getResult(index).exists()] is true exactly
    for [0 <= index < length]; in that range [execute()] returns the node
    at that position, and for every other index, negative ones included,
    it raises NodeNotFound. *)
Theorem getResult_indexes_the_collection c w (vs : list VNode) (index : Z) :
  getVNodes c w = Ok vs ->
  NodeListQuery_length c w = Ok (Z.of_nat (length vs))
  /\ exists_ (NodeListQuery_getResult c index) w
     = Ok (bool_decide (0 <= index < Z.of_nat (length vs))%Z)
  /\ ((0 <= index < Z.of_nat (length vs))%Z ->
      exists v, vs !! Z.to_nat index = Some v
                /\ execute (NodeListQuery_getResult c index) w = Ok v)
  /\ (~ (0 <= index < Z.of_nat (length vs))%Z ->
      execute (NodeListQuery_getResult c index) w = Throw NodeNotFound).
Proof.
  intros Hc.
  unfold NodeListQuery_length, exists_, execute, getResult. simpl.
  rewrite Hc. simpl. split; [reflexivity|]. split; [|split].
  - f_equal. apply at_index_is_Some.
  - intros Hin. destruct (at_index_in_range vs index Hin) as (v & Hat & Hv).
    exists v. by rewrite Hat.
  - intros Hout. by rewrite (at_index_out_of_range vs index Hout).
Qed.

(** X9: [getChild(index)] on a handle that resolves to a node with a
    children array.  [exists()] is true exactly for [0 <= index <] the
    number of children; in that range [execute()] returns the child at
    that position, which is also among the node's descendants that
    [query] and [queryAll] search; for every other index [execute()]
    raises NodeNotFound. *)
Theorem getChild_indexes_the_children q w (v : VNode) (cs : list VNode)
    (index : Z) :
  getVNode q w = Ok (Some v) ->
  children v = Some cs ->
  exists_ (getChild q index) w
  = Ok (bool_decide (0 <= index < Z.of_nat (length cs))%Z)
  /\ ((0 <= index < Z.of_nat (length cs))%Z ->
      exists child, cs !! Z.to_nat index = Some child
                    /\ execute (getChild q index) w = Ok child
                    /\ In child (descendants v))
  /\ (~ (0 <= index < Z.of_nat (length cs))%Z ->
      execute (getChild q index) w = Throw NodeNotFound).
Proof.
  intros Hq Hcs.
  unfold exists_, execute, getResult. simpl.
  unfold getResult. rewrite Hq. simpl. rewrite Hcs. split; [|split].
  - simpl. f_equal. apply at_index_is_Some.
  - intros Hin. destruct (at_index_in_range cs index Hin) as (x & Hat & Hx).
    exists x. rewrite Hat. split; [exact Hx|]. split; [reflexivity|].
    apply (children_are_descendants v x cs Hcs).
    apply list_elem_of_In. by apply (list_elem_of_lookup_2 cs (Z.to_nat index)).
  - intros Hout. by rewrite (at_index_out_of_range cs index Hout).
Qed.

(** X10: building on a handle that resolves to nothing.  Every
    resolution of a handle made from it by [query], and of a collection
    made from it by [queryAll], raises a TypeError, [exists()] and
    [length] included; every resolution of a handle made from it by
    [getChild] raises NodeNotFound, [exists()] included. *)
Theorem chaining_on_a_missing_node q w :
  getVNode q w = Ok None ->
  (forall selector q', query q selector = Ok q' ->
     exists_ q' w = Throw TypeError /\ execute q' w = Throw TypeError
     /\ textContent q' w = Throw TypeError)
  /\ (forall selector c, queryAll q selector = Ok c ->
        NodeListQuery_execute c w = Throw TypeError
        /\ NodeListQuery_length c w = Throw TypeError
        /\ forall index,
             exists_ (NodeListQuery_getResult c index) w = Throw TypeError)
  /\ (forall index,
        exists_ (getChild q index) w = Throw NodeNotFound
        /\ execute (getChild q index) w = Throw NodeNotFound).
Proof.
  intros Hq. split; [|split].
  - intros selector q' Hq'. apply query_inv in Hq' as (p & _ & ->).
    match goal with |- exists_ ?h w = _ /\ _ =>
      assert (getVNode h w = Throw TypeError) as Hthrow
        by (simpl; by rewrite (filterDescendantsOf_missing q p w Hq));
      destruct (accessor_error_propagates h w _ Hthrow) as (H1 & H2 & H3 & _)
    end.
    by repeat split.
  - intros selector c Hc. apply queryAll_inv in Hc as (p & _ & ->).
    unfold NodeListQuery_execute, NodeListQuery_length, exists_. simpl.
    by rewrite (filterDescendantsOf_missing q p w Hq).
  - intros index. unfold exists_, execute, getResult. simpl.
    unfold getResult. by rewrite Hq.
Qed.

(** X11: a query inside a query stays inside.  When a handle resolves to
    a node, what [query] and [getChild] on it resolve to is one of that
    node's descendants, and [queryAll] on any handle that resolves to
    such a descendant yields only nodes that [queryAll] with the same
    selector on the outer handle yields too. *)
Theorem nested_queries_stay_inside q w (v : VNode) :
  getVNode q w = Ok (Some v) ->
  (forall selector q1 x,
     query q selector = Ok q1 -> getVNode q1 w = Ok (Some x) ->
     In x (descendants v))
  /\ (forall index x,
        getVNode (getChild q index) w = Ok (Some x) -> In x (descendants v))
  /\ (forall q1 x selector c1 c,
        getVNode q1 w = Ok (Some x) -> In x (descendants v) ->
        queryAll q1 selector = Ok c1 -> queryAll q selector = Ok c ->
        exists inner outer,
          NodeListQuery_execute c1 w = Ok inner
          /\ NodeListQuery_execute c w = Ok outer
          /\ forall y, In y inner -> In y outer).
Proof.
  intros Hq. split; [|split].
  - intros selector q1 x Hq1 Hx.
    apply query_inv in Hq1 as (p & Hp & ->). simpl in Hx.
    rewrite (filterDescendantsOf_resolved q p w v Hq) in Hx. simpl in Hx.
    injection Hx as Hx.
    destruct (List.filter p (descendants v)) as [|z l] eqn:Hf; [discriminate|].
    injection Hx as ->.
    assert (In x (List.filter p (descendants v))) as Hin by (rewrite Hf; by left).
    by apply filter_In in Hin as [Hin _].
  - intros index x. simpl. unfold getResult. rewrite Hq. simpl.
    destruct (children v) as [cs|] eqn:Hcs; [|discriminate].
    intros [= Hat]. apply (children_are_descendants v x cs Hcs).
    unfold at_index in Hat. destruct (index <? 0)%Z; [discriminate|].
    apply list_elem_of_In. by apply (list_elem_of_lookup_2 cs (Z.to_nat index) x).
  - intros q1 x selector c1 c Hq1 Hx Hc1 Hc.
    destruct (queryAll_inv q selector c Hc) as (p & Hp & _).
    exists (List.filter p (descendants x)), (List.filter p (descendants v)).
    rewrite (queryAll_resolved q1 selector p c1 w x Hp Hc1 Hq1).
    rewrite (queryAll_resolved q selector p c w v Hp Hc Hq).
    do 2 (split; [reflexivity|]).
    intros y. rewrite !filter_In. intros [Hy Hpy]. split; [|exact Hpy].
    by apply (descendants_trans v x y).
Qed.

(** What resolving a rooted handle can raise, predicates and render
    function being total here. *)
Lemma rooted_error_kinds q w (e : Error) :
  rooted q ->
  getVNode q w = Throw e ->
  (renderMaquetteFunction w = None /\ e = NotInitialized)
  \/ (is_Some (renderMaquetteFunction w)
      /\ (e = NodeNotFound \/ e = TypeError)).
Proof.
  intros Hq. destruct (renderMaquetteFunction w) as [render|] eqn:Hw.
  - intros He. right. split; [by eexists|]. revert e He.
    induction Hq as [| |q selector q' _ IH Hq'|q index _ IH
                     |q selector c index _ IH Hc]; intros e.
    + simpl. unfold getRootVNode. rewrite Hw. discriminate.
    + simpl. unfold getRootVNode. rewrite Hw. discriminate.
    + apply query_inv in Hq' as (p & _ & ->). simpl.
      unfold filterDescendantsOf.
      destruct (getVNode q w) as [[x|]|e0]; simpl;
        [discriminate | intros [= <-]; by right | intros [= <-]; by apply IH].
    + simpl. unfold getResult.
      destruct (getVNode q w) as [[x|]|e0]; simpl.
      * destruct (children x); [discriminate | intros [= <-]; by right].
      * intros [= <-]. by left.
      * intros [= <-]. by apply IH.
    + apply queryAll_inv in Hc as (p & _ & ->). simpl.
      unfold filterDescendantsOf.
      destruct (getVNode q w) as [[x|]|e0]; simpl;
        [discriminate | intros [= <-]; by right | intros [= <-]; by apply IH].
  - intros He. left. split; [reflexivity|].
    rewrite (rooted_uninitialized q w Hq Hw) in He. by injection He.
Qed.


Lemma rootedByStrings_rooted q : rootedByStrings q -> rooted q.
Proof.
  intros Hq. induction Hq as [| |q s q' _ IH Hq'|q index _ IH
                              |q s c index _ IH Hc].
  - apply rooted_root.
  - apply rooted_start.
  - by apply (rooted_query q (SelString s) q').
  - by apply rooted_getChild.
  - by apply (rooted_getResult q (SelString s) c index).
Qed.

(** X12: what resolving a handle of the projector that was made with
    string selectors raises.  While no render function is bound, every
    resolution raises NotInitialized, and that is the only situation in
    which it is raised; when the render function returns a tree, a
    resolution that raises raises NodeNotFound or a TypeError. *)
Theorem errors_of_rooted_handles q w :
  rootedByStrings q ->
  (renderMaquetteFunction w = None -> getVNode q w = Throw NotInitialized)
  /\ (getVNode q w = Throw NotInitialized <-> renderMaquetteFunction w = None)
  /\ (forall T e,
        getRootVNode w = Ok T -> getVNode q w = Throw e ->
        e = NodeNotFound \/ e = TypeError).
Proof.
  intros Hq. apply rootedByStrings_rooted in Hq.
  split; [by apply rooted_uninitialized|]. split; [split|].
  - intros He.
    destruct (rooted_error_kinds q w _ Hq He) as [[Hw _]|[_ [Hk|Hk]]];
      [exact Hw | discriminate..].
  - by apply rooted_uninitialized.
  - intros T e HT He.
    destruct (rooted_error_kinds q w _ Hq He) as [[Hw _]|[_ Hk]]; [|exact Hk].
    unfold getRootVNode in HT. rewrite Hw in HT. discriminate.
Qed.

End MoreOnHandles.

(** ** The walkers and their accumulator *)

Lemma fold_left_ext_In {A B : Type} (f g : A -> B -> A) (l : list B) :
  (forall x, In x l -> forall a, f a x = g a x) ->
  forall a, fold_left f l a = fold_left g l a.
Proof.
  induction l as [|x l IH]; intros Hfg a; simpl; [reflexivity|].
  rewrite Hfg by (by left). apply IH. intros y Hy. apply Hfg. by right.
Qed.

Lemma text_eq_collectTextContent (v : VNode) :
  forall results, Index.text v results = collectTextContent v results.
Proof.
  induction v as [v IH] using VNode_children_ind. intros results.
  rewrite text_unfold, collectTextContent_unfold.
  destruct (String.eqb (vnodeSelector v) ""); [reflexivity|]. cbv zeta.
  destruct (children v) as [cs|] eqn:Hcs; [|reflexivity].
  apply fold_left_ext_In. intros c Hc a. by apply (IH cs c eq_refl).
Qed.

(** X13: the text walk of [src/index.ts] and the one of the projector
    are the same function, so [query(v).text()] and the [textContent] of
    a handle that resolves to [v] are the same string. *)
Theorem text_and_textContent_agree (v : VNode) :
  (forall results, Index.text v results = collectTextContent v results)
  /\ forall (AppState : Type) (q : NodeQuery AppState) (w : World AppState),
       getVNode q w = Ok (Some v) ->
       textContent q w = Ok (Index.MaquetteQuery_text (Index.query v)).
Proof.
  split; [apply text_eq_collectTextContent|].
  intros AppState q w Hq. unfold textContent, getResult. rewrite Hq.
  change (Ok (join (collectTextContent v [])) = Ok (join (Index.text v []))).
  by rewrite (text_eq_collectTextContent v []).
Qed.

Lemma collect_children_append (cs : list VNode) :
  (forall c, In c cs -> forall results,
     collectTextContent c results = results ++ collectTextContent c []) ->
  forall results,
    fold_left (fun results child => collectTextContent child results) cs results
    = results
      ++ fold_left (fun results child => collectTextContent child results) cs [].
Proof.
  induction cs as [|c cs IH]; intros Hcs results; simpl.
  - by rewrite app_nil_r.
  - assert (forall c', In c' cs -> forall results,
              collectTextContent c' results
              = results ++ collectTextContent c' []) as Hcs'
      by (intros; apply Hcs; by right).
    rewrite (IH Hcs' (collectTextContent c results)).
    rewrite (IH Hcs' (collectTextContent c [])).
    rewrite (Hcs c (or_introl eq_refl) results). by rewrite <- app_assoc.
Qed.

Lemma collectTextContent_append (v : VNode) :
  forall results,
    collectTextContent v results = results ++ collectTextContent v [].
Proof.
  induction v as [v IH] using VNode_children_ind. intros results.
  rewrite !collectTextContent_unfold.
  destruct (String.eqb (vnodeSelector v) ""); [reflexivity|]. cbv zeta.
  assert (match text v with
          | Some t => if String.eqb t "" then results else results ++ [Some t]
          | None => results
          end
          = results ++ match text v with
                       | Some t => if String.eqb t "" then [] else [Some t]
                       | None => []
                       end) as ->.
  { destruct (text v) as [t|]; [|by rewrite app_nil_r].
    destruct (String.eqb t ""); by rewrite ?app_nil_r. }
  assert (match text v with
          | Some t => if String.eqb t "" then [] else [] ++ [Some t]
          | None => []
          end
          = match text v with
            | Some t => if String.eqb t "" then [] else [Some t]
            | None => []
            end) as -> by reflexivity.
  destruct (children v) as [cs|] eqn:Hcs; [|reflexivity].
  assert (forall c, In c cs -> forall results,
            collectTextContent c results
            = results ++ collectTextContent c []) as Hcs'
    by (intros c Hc; by apply (IH cs c eq_refl)).
  rewrite (collect_children_append cs Hcs' (results ++ _)).
  rewrite (collect_children_append cs Hcs'
             (match text v with
              | Some t => if String.eqb t "" then [] else [Some t]
              | None => []
              end)).
  by rewrite <- app_assoc.
Qed.

(** X14: the walkers only ever add at the end of the array they are
    handed.  For [visit] (inside [filterDescendants]), [findAll],
    [collectTextContent] and [text]: the result on an array [results] is
    [results] itself, unchanged and in front, followed by what the walk
    yields on the empty array. *)
Theorem walkers_only_append (predicate : VNodePredicate) (v : VNode) :
  (forall results,
     visit predicate v results = results ++ visit predicate v [])
  /\ (forall results,
        Index.findAll predicate v results
        = results ++ Index.findAll predicate v [])
  /\ (forall results,
        collectTextContent v results = results ++ collectTextContent v [])
  /\ (forall results,
        Index.text v results = results ++ Index.text v []).
Proof.
  split; [|split; [|split]].
  - intros results. by rewrite !visit_spec.
  - intros results. by rewrite !findAll_spec.
  - apply collectTextContent_append.
  - intros results. rewrite !text_eq_collectTextContent.
    apply collectTextContent_append.
Qed.

(** X15: [find(selector)] of [src/index.ts] returns the first node in
    document order that satisfies the selector, the root included: the
    root itself when the root satisfies it, always a node of the tree
    that satisfies it, and [undefined] exactly when no node of the tree
    does. *)
Theorem find_is_first_match (selector : Selector)
    (predicate : VNodePredicate) (T : VNode) :
  Index.makeSelectorFunction selector = Ok predicate ->
  Index.MaquetteQuery_find (Index.query T) selector
  = Ok (head (map Index.query (List.filter predicate (preorder T))))
  /\ (predicate T = true ->
      Index.MaquetteQuery_find (Index.query T) selector
      = Ok (Some (Index.query T)))
  /\ (forall found,
        Index.MaquetteQuery_find (Index.query T) selector = Ok (Some found) ->
        In (Index.vnodeTree found) (preorder T)
        /\ predicate (Index.vnodeTree found) = true)
  /\ (Index.MaquetteQuery_find (Index.query T) selector = Ok None
      <-> forall x, In x (preorder T) -> predicate x = false).
Proof.
  intros Hsel. unfold Index.MaquetteQuery_find. rewrite Hsel. simpl.
  rewrite findAll_spec. simpl.
  split; [reflexivity|]. split; [|split].
  - intros Hp. rewrite preorder_unfold. simpl. by rewrite Hp.
  - intros found Hfound. injection Hfound as Hfound.
    destruct (List.filter predicate (preorder T)) as [|x l] eqn:Hf;
      [discriminate|].
    injection Hfound as <-. simpl.
    assert (In x (List.filter predicate (preorder T))) as Hin
      by (rewrite Hf; by left).
    by apply filter_In in Hin.
  - split.
    + intros Hnone x Hx. injection Hnone as Hnone.
      destruct (predicate x) eqn:Hpx; [|reflexivity].
      assert (In x (List.filter predicate (preorder T))) as Hin
        by (by apply filter_In).
      destruct (List.filter predicate (preorder T)); [destruct Hin|discriminate].
    + intros Hall. f_equal.
      destruct (List.filter predicate (preorder T)) as [|x l] eqn:Hf;
        [reflexivity|].
      assert (In x (List.filter predicate (preorder T))) as Hin
        by (rewrite Hf; by left).
      apply filter_In in Hin as [Hin Hpx]. rewrite (Hall x Hin) in Hpx.
      discriminate.
Qed.

(** X16: the [children] getter of the object [query(vnodeTree)] returns
    never shows the node's children.  Its cache starts as the empty
    array, which is truthy, so however often the getter is read it
    returns the empty array and leaves the cache as it was, for a node
    with children as well. *)
Theorem children_getter_is_always_empty (q : Index.MaquetteQuery) (n : nat) :
  read_children q n children_initially
  = (repeat (Ok []) n, children_initially).
Proof.
  induction n as [|n IH]; [reflexivity|].
  simpl. simpl in IH. by rewrite IH.
Qed.

(** ** Events *)

Lemma builds_intro (build : Sim loc) (o : JSObject) (s : SimState) :
  build s = (Ok (length (heap s)), mkSimState (heap s ++ [o]) (trace s)) ->
  builds build o s.
Proof.
  intros Hrun. eexists. split; [exact Hrun|]. simpl.
  split; [reflexivity|]. split; [reflexivity|].
  split; [apply lookup_fresh|]. intros l Hl. by apply lookup_app_l.
Qed.

(** X17: the four event constructors.  Each puts one new object at a
    fresh location and returns it, without touching the objects already
    there or calling anything.  The new event has [defaultPrevented] and
    [propagationStopped] false and the given target; only a key event
    has [which]; a mouse event has the [pageX] and [pageY] of its
    parameters and none without parameters. *)
Theorem event_constructors_allocate_fresh (targetElement : option loc) (keyCode : Z)
    (parameters : option MouseEventParameters) (s : SimState) :
  builds (Index.createEvent targetElement) (eventObject targetElement) s
  /\ builds (Index.createFocusEvent targetElement) (eventObject targetElement) s
  /\ builds (Index.createKeyEvent keyCode targetElement)
       (keyEventObject keyCode targetElement) s
  /\ builds (Index.createMouseEvent targetElement parameters)
       (mouseEventObject targetElement parameters) s
  /\ Forall (fun o => defaultPrevented o = Some false
                      /\ propagationStopped o = Some false
                      /\ target o = targetElement /\ value o = None)
       [eventObject targetElement; keyEventObject keyCode targetElement;
        mouseEventObject targetElement parameters]
  /\ which (keyEventObject keyCode targetElement) = Some keyCode
  /\ which (eventObject targetElement) = None
  /\ which (mouseEventObject targetElement parameters) = None
  /\ pageX (mouseEventObject targetElement parameters)
     = (parameters ≫= params_pageX)
  /\ pageY (mouseEventObject targetElement parameters)
     = (parameters ≫= params_pageY).
Proof.
  split; [apply builds_intro, createEvent_run|].
  split; [apply builds_intro, createEvent_run|].
  split; [apply builds_intro, createKeyEvent_run|].
  split; [apply builds_intro, createMouseEvent_run|].
  split; [repeat constructor; by destruct parameters|].
  repeat split; by destruct parameters.
Qed.

(** X18: [event.preventDefault()] and [event.stopPropagation()].  Each
    sets its own flag of that event to true and changes nothing else:
    not the other flag, not the event's target, [which], [pageX] or
    [pageY], not any other object.  Calling one twice is the same as
    calling it once, and the order of the two does not matter. *)
Theorem preventDefault_and_stopPropagation (hp : Heap) (event : loc)
    (o : JSObject) :
  hp !! event = Some o ->
  preventDefault event hp !! event
  = Some (mkObject (value o) (Some true) (propagationStopped o) (target o)
            (which o) (pageX o) (pageY o))
  /\ stopPropagation event hp !! event
     = Some (mkObject (value o) (defaultPrevented o) (Some true) (target o)
               (which o) (pageX o) (pageY o))
  /\ (forall l, l <> event ->
        preventDefault event hp !! l = hp !! l
        /\ stopPropagation event hp !! l = hp !! l)
  /\ length (preventDefault event hp) = length hp
  /\ length (stopPropagation event hp) = length hp
  /\ preventDefault event (preventDefault event hp) = preventDefault event hp
  /\ stopPropagation event (stopPropagation event hp)
     = stopPropagation event hp
  /\ preventDefault event (stopPropagation event hp)
     = stopPropagation event (preventDefault event hp).
Proof.
  intros Ho. unfold preventDefault, stopPropagation.
  unfold Heap, loc in *.
  split; [by rewrite list_lookup_alter_eq, Ho|].
  split; [by rewrite list_lookup_alter_eq, Ho|].
  split; [intros l Hl; split; by apply list_lookup_alter_ne|].
  split; [apply length_alter|]. split; [apply length_alter|].
  split; [|split].
  - rewrite list_alter_alter_eq. by apply list_alter_ext.
  - rewrite list_alter_alter_eq. by apply list_alter_ext.
  - rewrite !list_alter_alter_eq. by apply list_alter_ext.
Qed.

(** ** The single-action methods *)

Lemma dispatch_run (p : gmap string Handler) (name : string) (f : Handler)
    (build : Sim loc) (o : JSObject) (s : SimState) :
  p !! name = Some f ->
  build s = (Ok (length (heap s)), mkSimState (heap s ++ [o]) (trace s)) ->
  (event ← build; _ ← Index.invoke (Some p) name event; mret event) s
  = dispatched name o f s.
Proof.
  intros Hf Hbuild. rewrite (sim_bind_ok _ _ _ _ _ Hbuild).
  unfold mbind, sim_bind, Index.invoke, call, dispatched, mret, sim_ret.
  rewrite Hf. cbn [heap trace]. rewrite lookup_fresh.
  by destruct (f (length (heap s)) (heap s ++ [o])) as [[e|] hp].
Qed.

Lemma dispatch_fail (props : option (gmap string Handler)) (name : string)
    (build : Sim loc) (o : JSObject) (s : SimState) :
  match props with
  | Some p => p !! name = None
  | None => True
  end ->
  build s = (Ok (length (heap s)), mkSimState (heap s ++ [o]) (trace s)) ->
  (event ← build; _ ← Index.invoke props name event; mret event) s
  = (Throw TypeError, mkSimState (heap s ++ [o]) (trace s)).
Proof.
  intros Hnone Hbuild. rewrite (sim_bind_ok _ _ _ _ _ Hbuild).
  unfold mbind, sim_bind, Index.invoke, throw.
  destruct props as [p|]; [by rewrite Hnone | reflexivity].
Qed.

(** X19: a single-action method on a node whose bag has the handler.
    [keyDown], [keyUp], [mouseDown], [mouseUp], [input], [change],
    [focus] and [blur] each build one event of their kind, call the
    handler of their name exactly once with it, and return that event
    when the handler returns; when the handler throws, the method throws
    the same error.  Either way the heap is left as the handler left
    it. *)
Theorem single_action_calls_its_handler_once (vnode : VNode)
    (p : gmap string Handler) (f : Handler) (s : SimState) :
  properties vnode = Some p ->
  (forall m keyCode targetElement,
     p !! keyHandler m = Some f ->
     keyMethod m (Index.createSimulator vnode) keyCode targetElement s
     = dispatched (keyHandler m) (keyEventObject keyCode targetElement) f s)
  /\ (forall m targetElement parameters,
        p !! mouseHandler m = Some f ->
        mouseMethod m (Index.createSimulator vnode) targetElement parameters s
        = dispatched (mouseHandler m)
            (mouseEventObject targetElement parameters) f s)
  /\ (forall m targetElement,
        p !! plainHandler m = Some f ->
        plainMethod m (Index.createSimulator vnode) targetElement s
        = dispatched (plainHandler m) (eventObject targetElement) f s).
Proof.
  intros Hp. split; [|split].
  - intros m keyCode targetElement Hf.
    destruct m; unfold keyMethod, Index.createSimulator; simpl; rewrite Hp;
      apply dispatch_run; auto using createKeyEvent_run.
  - intros m targetElement parameters Hf.
    destruct m; unfold mouseMethod, Index.createSimulator; simpl; rewrite Hp;
      apply dispatch_run; auto using createMouseEvent_run.
  - intros m targetElement Hf.
    destruct m; unfold plainMethod, Index.createSimulator; simpl; rewrite Hp;
      apply dispatch_run; auto using createEvent_run.
Qed.

(** X20: a single-action method on a node that lacks the handler, or
    has no property bag at all, raises a TypeError.  The event has been
    built by then, so the heap has grown by that one object; nothing was
    called and nothing else changed. *)
Theorem single_action_without_handler_fails (vnode : VNode) (s : SimState) :
  (forall m keyCode targetElement,
     notWired vnode (keyHandler m) ->
     keyMethod m (Index.createSimulator vnode) keyCode targetElement s
     = (Throw TypeError,
        mkSimState (heap s ++ [keyEventObject keyCode targetElement]) (trace s)))
  /\ (forall m targetElement parameters,
        notWired vnode (mouseHandler m) ->
        mouseMethod m (Index.createSimulator vnode) targetElement parameters s
        = (Throw TypeError,
           mkSimState (heap s ++ [mouseEventObject targetElement parameters])
             (trace s)))
  /\ (forall m targetElement,
        notWired vnode (plainHandler m) ->
        plainMethod m (Index.createSimulator vnode) targetElement s
        = (Throw TypeError,
           mkSimState (heap s ++ [eventObject targetElement]) (trace s))).
Proof.
  unfold notWired. split; [|split].
  - intros m keyCode targetElement Hnone.
    destruct m; unfold keyMethod, Index.createSimulator; simpl;
      apply dispatch_fail; auto using createKeyEvent_run.
  - intros m targetElement parameters Hnone.
    destruct m; unfold mouseMethod, Index.createSimulator; simpl;
      apply dispatch_fail; auto using createMouseEvent_run.
  - intros m targetElement Hnone.
    destruct m; unfold plainMethod, Index.createSimulator; simpl;
      apply dispatch_fail; auto using createEvent_run.
Qed.

(** ** [keyPress] and the heap *)

Lemma setValue_twice (a b : string) (hp : Heap) (l : loc) :
  alter (setValue b) l (alter (setValue a) l hp) = alter (setValue b) l hp.
Proof.
  unfold Heap, loc in *. rewrite list_alter_alter_eq. by apply list_alter_ext.
Qed.

(** X21: [keyPress] on a node whose bag has none of [onkeydown],
    [onkeyup], [oninput].  It returns normally, having written
    [valueBefore] and then [valueAfter] to the target and called nothing:
    the target ends with [value] equal to [valueAfter] and its other
    fields as they were, no other object changes, and no event is built.
    An omitted target is a fresh empty object that receives the same
    writes. *)
Theorem keyPress_without_handlers_only_writes (vnode : VNode)
    (p : gmap string Handler) (keyCode : Z) (valueBefore valueAfter : string)
    (targetElement : option loc) (s : SimState) :
  properties vnode = Some p ->
  p !! "onkeydown" = None -> p !! "onkeyup" = None -> p !! "oninput" = None ->
  let element := match targetElement with
                 | Some l => l
                 | None => length (heap s)
                 end in
  let before := match targetElement with
                | Some _ => heap s
                | None => heap s ++ [emptyObject]
                end in
  Index.keyPress (Index.createSimulator vnode)
    keyCode valueBefore valueAfter targetElement s
  = (Ok tt,
     mkSimState (alter (setValue valueAfter) element before)
       (trace s ++ [SetValue element valueBefore; SetValue element valueAfter]))
  /\ (forall o, before !! element = Some o ->
        alter (setValue valueAfter) element before !! element
        = Some (mkObject (Some valueAfter) (defaultPrevented o)
                  (propagationStopped o) (target o) (which o)
                  (pageX o) (pageY o)))
  /\ (forall l, l <> element ->
        alter (setValue valueAfter) element before !! l = before !! l)
  /\ length (alter (setValue valueAfter) element before) = length before.
Proof.
  intros Hp Hkd Hku Hki element before. split; [|split; [|split]].
  - unfold Index.keyPress, Index.createSimulator, Index.wired. rewrite Hp.
    unfold mbind, sim_bind, mret, sim_ret, writeValue, alloc.
    rewrite Hkd, Hku, Hki.
    destruct targetElement as [l|]; cbn -[alter]; subst element before;
      by rewrite setValue_twice, <- app_assoc.
  - intros o Ho. unfold Heap, loc in *. by rewrite list_lookup_alter_eq, Ho.
  - intros l Hl. unfold Heap, loc in *. by apply list_lookup_alter_ne.
  - unfold Heap, loc in *. apply length_alter.
Qed.

(** X22: [keyPress] on a node whose bag has [onkeydown] and neither
    [onkeyup] nor [oninput], for any handler.  The handler is called
    once, with a key event for the key code on the target, on a heap in
    which the target's [value] is [valueBefore].  When it returns,
    [valueAfter] is written over whatever the handler left in the
    target's [value] and [keyPress] returns; when it throws, [keyPress]
    throws the same error and [valueAfter] is never written. *)
Theorem keyPress_keydown_sees_valueBefore (vnode : VNode)
    (p : gmap string Handler) (f : Handler) (keyCode : Z)
    (valueBefore valueAfter : string) (element : loc) (s : SimState)
    (outcome : option Error) (hp' : Heap) :
  properties vnode = Some p ->
  p !! "onkeydown" = Some f -> p !! "onkeyup" = None -> p !! "oninput" = None ->
  let event := length (heap s) in
  let atCall := alter (setValue valueBefore) element (heap s)
                ++ [keyEventObject keyCode (Some element)] in
  f event atCall = (outcome, hp') ->
  ((element < length (heap s))%nat ->
     (atCall !! element ≫= value) = Some valueBefore)
  /\ atCall !! event = Some (keyEventObject keyCode (Some element))
  /\ Index.keyPress (Index.createSimulator vnode)
       keyCode valueBefore valueAfter (Some element) s
     = match outcome with
       | None =>
           (Ok tt,
            mkSimState (alter (setValue valueAfter) element hp')
              (trace s
               ++ [SetValue element valueBefore;
                   Invoke "onkeydown" event
                     (Some (keyEventObject keyCode (Some element)));
                   SetValue element valueAfter]))
       | Some e =>
           (Throw e,
            mkSimState hp'
              (trace s
               ++ [SetValue element valueBefore;
                   Invoke "onkeydown" event
                     (Some (keyEventObject keyCode (Some element)))]))
       end.
Proof.
  intros Hp Hkd Hku Hki event atCall Hf.
  assert (length (alter (setValue valueBefore) element (heap s))
          = length (heap s)) as Hlen
    by (unfold Heap, loc in *; apply length_alter).
  split; [|split].
  - intros Hin. subst atCall. unfold Heap, loc in *.
    rewrite lookup_app_l by (rewrite Hlen; exact Hin).
    rewrite list_lookup_alter_eq.
    destruct (lookup_lt_is_Some_2 (heap s) element Hin) as [o Ho].
    by rewrite Ho.
  - subst atCall event. rewrite <- Hlen. apply lookup_fresh.
  - unfold Index.keyPress, Index.createSimulator. rewrite Hp.
    rewrite (sim_bind_ok (mret element) _ s element s eq_refl).
    set (s1 := mkSimState (alter (setValue valueBefore) element (heap s))
                 (trace s ++ [SetValue element valueBefore])).
    rewrite (sim_bind_ok (writeValue element valueBefore) _ s tt s1 eq_refl).
    assert (Index.wired (Some p) "onkeydown" s1 = (Ok true, s1)) as Hw1.
    { unfold Index.wired, mret, sim_ret. rewrite Hkd.
      by rewrite bool_decide_eq_true_2 by (by eexists). }
    rewrite (sim_bind_ok _ _ s1 true s1 Hw1).
    assert ((event0 ← Index.createKeyEvent keyCode (Some element);
             Index.invoke (Some p) "onkeydown" event0) s1
            = (match outcome with None => Ok tt | Some e => Throw e end,
               mkSimState hp'
                 (trace s1 ++ [Invoke "onkeydown" event
                                 (Some (keyEventObject keyCode (Some element)))])))
      as Hinner.
    { rewrite (sim_bind_ok _ _ _ _ _ (createKeyEvent_run keyCode (Some element) s1)).
      unfold Index.invoke. rewrite Hkd. unfold call. cbn [heap trace s1].
      rewrite lookup_fresh, Hlen.
      change (f (length (heap s))
                (alter (setValue valueBefore) element (heap s)
                 ++ [keyEventObject keyCode (Some element)]))
        with (f event atCall).
      rewrite Hf. by destruct outcome. }
    destruct outcome as [e|].
    + rewrite (sim_bind_throw _ _ _ _ _ Hinner). subst s1. cbn [trace].
      by rewrite <- app_assoc.
    + rewrite (sim_bind_ok _ _ _ _ _ Hinner).
      unfold mbind, sim_bind, writeValue, Index.wired, mret, sim_ret.
      rewrite Hku, Hki. cbn -[alter]. subst s1. cbn [trace].
      by rewrite <- !app_assoc.
Qed.

(** ** The further properties on the example data *)

Lemma projector_queryAll_is_root_then_root_queryAll_witness :
  makeSelectorFunction (SelString "div") = Ok (stringSelector "div")
  /\ getRootVNode exampleWorld = Ok exampleTree
  /\ exists cP cR below,
      projector_queryAll (SelString "div") = Ok cP
      /\ queryAll root (SelString "div") = Ok cR
      /\ NodeListQuery_execute cR exampleWorld = Ok below
      /\ NodeListQuery_execute cP exampleWorld
         = Ok ((if stringSelector "div" exampleTree then [exampleTree] else [])
               ++ below).
Proof.
  do 2 (split; [reflexivity|]).
  destruct (projector_queryAll_is_root_then_root_queryAll
              (SelString "div") (stringSelector "div") exampleWorld exampleTree
              _ _ _ _ eq_refl eq_refl eq_refl eq_refl eq_refl eq_refl)
    as (below & HR & HP & _).
  eexists _, _, below. by repeat split.
Defined.

Lemma query_is_first_of_queryAll_witness :
  exists q' c,
    query (root (AppState := unit)) (SelString ".here") = Ok q'
    /\ queryAll root (SelString ".here") = Ok c
    /\ getVNode q' exampleWorld
       = getVNode (NodeListQuery_getResult c 0) exampleWorld
    /\ getVNode q' uninitializedWorld
       = getVNode (NodeListQuery_getResult c 0) uninitializedWorld.
Proof.
  eexists _, _. do 2 (split; [reflexivity|]).
  split; apply (query_is_first_of_queryAll root (SelString ".here") _ _
                  eq_refl eq_refl).
Defined.

Lemma getResult_indexes_the_collection_witness :
  exists c vs,
    queryAll (root (AppState := unit)) (SelString ".here") = Ok c
    /\ getVNodes c exampleWorld = Ok vs
    /\ NodeListQuery_length c exampleWorld = Ok (Z.of_nat (length vs))
    /\ exists_ (NodeListQuery_getResult c 1) exampleWorld
       = Ok (bool_decide (0 <= 1 < Z.of_nat (length vs))%Z)
    /\ length vs = 3%nat.
Proof.
  eexists _, _. do 2 (split; [reflexivity|]).
  match goal with |- NodeListQuery_length ?c _ = Ok (Z.of_nat (length ?vs)) /\ _ =>
    destruct (getResult_indexes_the_collection c exampleWorld vs 1 eq_refl)
      as (Hlen & Hex & _)
  end.
  split; [exact Hlen|]. split; [exact Hex|]. reflexivity.
Defined.

Lemma getChild_indexes_the_children_witness :
  getVNode root exampleWorld = Ok (Some exampleTree)
  /\ children exampleTree
     = Some [h "div.here" [];
             h "div" [h "div.here.too" []; h "div.and.here.too" []]]
  /\ exists_ (getChild root 0) exampleWorld = Ok true
  /\ exists_ (getChild root (-1)) exampleWorld = Ok false
  /\ execute (getChild root 2) exampleWorld = Throw NodeNotFound.
Proof.
  do 2 (split; [reflexivity|]).
  pose proof (fun index =>
                getChild_indexes_the_children root exampleWorld exampleTree _
                  index eq_refl eq_refl) as Hchild.
  split; [exact (proj1 (Hchild 0%Z))|].
  split; [exact (proj1 (Hchild (-1)%Z))|].
  apply (Hchild 2%Z). simpl. lia.
Defined.

Lemma chaining_on_a_missing_node_witness :
  getVNode (getChild root 5) exampleWorld = Ok None
  /\ exists_ (getChild (getChild root 5) 0) exampleWorld = Throw NodeNotFound
  /\ exists q', query (getChild root 5) (SelString "div") = Ok q'
                /\ exists_ q' exampleWorld = Throw TypeError.
Proof.
  split; [reflexivity|].
  destruct (chaining_on_a_missing_node (getChild root 5) exampleWorld eq_refl)
    as (Hquery & _ & Hchild).
  split; [exact (proj1 (Hchild 0%Z))|].
  eexists. split; [reflexivity|].
  exact (proj1 (Hquery (SelString "div") _ eq_refl)).
Defined.

Lemma nested_queries_stay_inside_witness :
  getVNode root exampleWorld = Ok (Some exampleTree)
  /\ In (h "div" [h "div.here.too" []; h "div.and.here.too" []])
       (descendants exampleTree).
Proof.
  split; [reflexivity|].
  destruct (nested_queries_stay_inside root exampleWorld exampleTree eq_refl)
    as (_ & Hchild & _).
  apply (Hchild 1%Z). reflexivity.
Defined.

Lemma errors_of_rooted_handles_witness :
  (exists q,
     query (getChild (root (AppState := unit)) 5) (SelString "div") = Ok q
     /\ rootedByStrings q
     /\ getVNode q uninitializedWorld = Throw NotInitialized
     /\ getRootVNode exampleWorld = Ok exampleTree
     /\ getVNode q exampleWorld = Throw TypeError
     /\ (TypeError = NodeNotFound \/ TypeError = TypeError)).
Proof.
  eexists. split; [reflexivity|].
  match goal with |- rootedByStrings ?q /\ _ =>
    assert (rootedByStrings q) as Hq
      by (apply (rootedByStrings_query (getChild root 5) "div");
          [apply rootedByStrings_getChild, rootedByStrings_root | reflexivity]);
    destruct (errors_of_rooted_handles q uninitializedWorld Hq)
      as (Hunbound & _ & _);
    destruct (errors_of_rooted_handles q exampleWorld Hq) as (_ & _ & Hkinds)
  end.
  split; [exact Hq|]. split; [apply Hunbound; reflexivity|].
  do 2 (split; [reflexivity|]).
  apply (Hkinds exampleTree TypeError); reflexivity.
Defined.

Lemma text_and_textContent_agree_witness :
  getVNode root (createTestProjector tt (Some (fun _ => exampleParagraph)))
  = Ok (Some exampleParagraph)
  /\ textContent root (createTestProjector tt (Some (fun _ => exampleParagraph)))
     = Ok (Index.MaquetteQuery_text (Index.query exampleParagraph)).
Proof.
  split; [reflexivity|].
  apply (text_and_textContent_agree exampleParagraph). reflexivity.
Defined.

Lemma find_is_first_match_witness :
  Index.makeSelectorFunction (SelString ".here") = Ok (stringSelector ".here")
  /\ Index.MaquetteQuery_find (Index.query exampleTree) (SelString ".here")
     = Ok (head (map Index.query
                   (List.filter (stringSelector ".here") (preorder exampleTree)))).
Proof.
  split; [reflexivity|].
  apply (find_is_first_match (SelString ".here") (stringSelector ".here")
           exampleTree eq_refl).
Defined.

Lemma preventDefault_and_stopPropagation_witness :
  heap twoObjects !! 1%nat = Some (keyEventObject 9 (Some 0%nat))
  /\ preventDefault 1%nat (heap twoObjects) !! 1%nat
     = Some (mkObject None (Some true) (Some false) (Some 0%nat) (Some 9)
               None None).
Proof.
  split; [reflexivity|].
  apply (preventDefault_and_stopPropagation (heap twoObjects) 1%nat
           (keyEventObject 9 (Some 0%nat)) eq_refl).
Defined.

Lemma single_action_calls_its_handler_once_witness :
  (exists p, properties exampleMouseButton = Some p
             /\ p !! mouseHandler MouseUp = Some preventingHandler
             /\ p !! keyHandler KeyDown = Some throwingHandler)
  /\ Index.mouseUp (Index.createSimulator exampleMouseButton)
       (Some 0%nat) (Some exampleParameters) oneTarget
     = dispatched "onmouseup"
         (mouseEventObject (Some 0%nat) (Some exampleParameters))
         preventingHandler oneTarget
  /\ Index.keyDown (Index.createSimulator exampleMouseButton)
       13 (Some 0%nat) oneTarget
     = dispatched "onkeydown" (keyEventObject 13 (Some 0%nat))
         throwingHandler oneTarget.
Proof.
  split; [eexists; repeat split; reflexivity|].
  split.
  - apply (proj1 (proj2 (single_action_calls_its_handler_once
                           exampleMouseButton _ preventingHandler oneTarget
                           eq_refl)) MouseUp).
    reflexivity.
  - apply (proj1 (single_action_calls_its_handler_once
                    exampleMouseButton _ throwingHandler oneTarget eq_refl)
             KeyDown).
    reflexivity.
Defined.

Lemma single_action_without_handler_fails_witness :
  notWired exampleMouseButton (plainHandler Blur)
  /\ notWired (h "div" []) (keyHandler KeyUp)
  /\ Index.blur (Index.createSimulator exampleMouseButton) None oneTarget
     = (Throw TypeError,
        mkSimState (heap oneTarget ++ [eventObject None]) (trace oneTarget))
  /\ Index.keyUp (Index.createSimulator (h "div" [])) 13 None oneTarget
     = (Throw TypeError,
        mkSimState (heap oneTarget ++ [keyEventObject 13 None])
          (trace oneTarget)).
Proof.
  assert (notWired exampleMouseButton (plainHandler Blur)) as Hblur
    by reflexivity.
  assert (notWired (h "div" []) (keyHandler KeyUp)) as Hkey by exact I.
  do 2 (split; [assumption|]). split.
  - exact (proj2 (proj2 (single_action_without_handler_fails
                           exampleMouseButton oneTarget)) Blur None Hblur).
  - exact (proj1 (single_action_without_handler_fails (h "div" []) oneTarget)
             KeyUp 13%Z None Hkey).
Defined.

Lemma keyPress_without_handlers_only_writes_witness :
  properties exampleInputNoHandlers = Some ∅
  /\ Index.keyPress (Index.createSimulator exampleInputNoHandlers)
       13 "" "a" (Some 0%nat) twoObjects
     = (Ok tt,
        mkSimState (alter (setValue "a") 0%nat (heap twoObjects))
          [SetValue 0%nat ""; SetValue 0%nat "a"]).
Proof.
  split; [reflexivity|].
  apply (keyPress_without_handlers_only_writes exampleInputNoHandlers ∅
           13 "" "a" (Some 0%nat) twoObjects eq_refl eq_refl eq_refl eq_refl).
Defined.

Lemma keyPress_keydown_sees_valueBefore_witness :
  (exists p, properties exampleInputKeydownOnly = Some p
             /\ p !! "onkeydown" = Some preventingHandler
             /\ p !! "onkeyup" = None /\ p !! "oninput" = None)
  /\ ((alter (setValue "") 0%nat (heap twoObjects)
       ++ [keyEventObject 13 (Some 0%nat)]) !! 0%nat ≫= value) = Some ""
  /\ exists s',
      Index.keyPress (Index.createSimulator exampleInputKeydownOnly)
        13 "" "a" (Some 0%nat) twoObjects = (Ok tt, s')
      /\ (heap s' !! 0%nat ≫= value) = Some "a".
Proof.
  split; [eexists; repeat split; reflexivity|].
  destruct (keyPress_keydown_sees_valueBefore exampleInputKeydownOnly _
              preventingHandler 13 "" "a" 0%nat twoObjects None _
              eq_refl eq_refl eq_refl eq_refl eq_refl)
    as (Hvalue & _ & Hrun).
  split; [apply Hvalue; simpl; lia|].
  eexists. split; [exact Hrun|]. reflexivity.
Defined.

